(** * The extraction-and-reconciliation engine of [src/pdf_processor.py]

    A shallow embedding of [PDFProcessor] (numeric normaliser, table
    extraction, reconciliation, summary) together with the properties
    the specification states about it.

    Modelling conventions.
    - [Decimal] values are exact rationals ([Q]); numeric comparison
      ([==], [!=], truthiness) is [Qeq].  Division raises on a zero
      divisor, as [decimal] does under its default context.  The
      28-digit rounding of the default context is not modelled.
    - Python strings are [string]s of bytes (UTF-8); [\d], [lower] and
      [strip] are the ASCII ones.
    - [Item] is a mutable dataclass, handled by reference: the program
      state is a heap from object identities to [Item] values and a
      list of Items is a list of references.
    - A [dict] keeps insertion order and is an association list.
    - A raised exception is an explicit [Raise] result.
    - Table cells are strings, as the signatures say ([List[str]]).
    - The pattern of the text strategy is run by a backtracking matcher
      written for it, with the priorities of [re]: greedy repetition,
      the optional group tried first.
    - Opening the PDF and reading a page are inputs: a document is the
      list of its pages, or the exception raised when opening it, and a
      page gives its tables and its text, or the exception raised when
      reading them.
    - Of the other modules, the development covers what consumes the
      results: the summary built in [run_example.py], and
      [_should_send_notification] and [_format_path] of
      [src/notifier.py]. *)

From Stdlib Require Import List String Ascii Bool Arith ZArith QArith Qabs Lia.
Import ListNotations.
Open Scope string_scope.
Open Scope Q_scope.

(** ** Exceptions *)

Inductive exn : Type :=
| DivisionByZero
| InvalidOperation
| IndexError.

Inductive result (A : Type) : Type :=
| Ok (a : A)
| Raise (e : exn).
Arguments Ok {A} a.
Arguments Raise {A} e.

Definition bind {A B} (m : result A) (k : A -> result B) : result B :=
  match m with
  | Ok a => k a
  | Raise e => Raise e
  end.

Notation "x <- m ;; k" := (bind m (fun x => k))
  (at level 61, m at next level, right associativity).

(** ** Insertion-ordered dictionaries with string keys *)

Section Dict.
Context {V : Type}.

Definition dict := list (string * V).

Fixpoint dict_get (d : dict) (k : string) : option V :=
  match d with
  | [] => None
  | (k', v) :: d' => if String.eqb k' k then Some v else dict_get d' k
  end.

(** [d[k] = v]: an existing key keeps its position. *)
Fixpoint dict_set (d : dict) (k : string) (v : V) : dict :=
  match d with
  | [] => [(k, v)]
  | (k', v') :: d' =>
      if String.eqb k' k then (k', v) :: d' else (k', v') :: dict_set d' k v
  end.

(** [d.get(k, default)] *)
Definition dict_get_default (d : dict) (k : string) (default : V) : V :=
  match dict_get d k with
  | Some v => v
  | None => default
  end.

Definition dict_keys (d : dict) : list string := map fst d.
Definition dict_values (d : dict) : list V := map snd d.

(** [not d] *)
Definition dict_is_empty (d : dict) : bool :=
  match d with
  | [] => true
  | _ :: _ => false
  end.
End Dict.
Arguments dict V : clear implicits.

(** ** Data model *)

Record Item : Type := mkItem {
  item_code : string;
  description : string;
  quantity : Q;
  unit_price : Q;
  total_price : Q
}.


Record ComparisonResult : Type := mkComparisonResult {
  res_item_code : string;
  res_description : string;
  offer_quantity : Q;
  delivered_quantity : Q;
  offer_price : Q;
  invoiced_price : Q;
  quantity_difference : Q;
  price_difference : Q;
  status : string
}.

Record PDFProcessor : Type := mkPDFProcessor {
  price_tolerance : Q
}.

(** [PDFProcessor.__init__] *)
Definition PDFProcessor_init : PDFProcessor :=
  {| price_tolerance := 2 # 100 |}.

(** ** Decimal helpers *)

(** Truthiness of a [Decimal]: false exactly for zero. *)
Definition dec_truthy (q : Q) : bool := negb (Qeq_bool q 0).

(** [a / b] on [Decimal]s under the default context. *)
Definition dec_div (a b : Q) : result Q :=
  if Qeq_bool b 0 then
    if Qeq_bool a 0 then Raise InvalidOperation else Raise DivisionByZero
  else Ok (a / b).

(** [a > b] *)
Definition dec_gt (a b : Q) : bool := negb (Qle_bool a b).

(** ** Character and string helpers *)

Definition is_digit (c : ascii) : bool :=
  let n := nat_of_ascii c in (48 <=? n)%nat && (n <=? 57)%nat.

Definition digit_value (c : ascii) : Z := Z.of_nat (nat_of_ascii c - 48).

(** [str.isspace] on ASCII. *)
Definition is_space (c : ascii) : bool :=
  let n := nat_of_ascii c in
  ((9 <=? n)%nat && (n <=? 13)%nat) || ((28 <=? n)%nat && (n <=? 32)%nat).

Definition to_lower (c : ascii) : ascii :=
  let n := nat_of_ascii c in
  if (65 <=? n)%nat && (n <=? 90)%nat then ascii_of_nat (n + 32) else c.

Fixpoint lower (s : string) : string :=
  match s with
  | EmptyString => EmptyString
  | String c s' => String (to_lower c) (lower s')
  end.

Fixpoint string_filter (p : ascii -> bool) (s : string) : string :=
  match s with
  | EmptyString => EmptyString
  | String c s' => if p c then String c (string_filter p s') else string_filter p s'
  end.

Fixpoint string_map (f : ascii -> ascii) (s : string) : string :=
  match s with
  | EmptyString => EmptyString
  | String c s' => String (f c) (string_map f s')
  end.

Fixpoint string_mem (c : ascii) (s : string) : bool :=
  match s with
  | EmptyString => false
  | String c' s' => Ascii.eqb c' c || string_mem c s'
  end.

Fixpoint string_forallb (p : ascii -> bool) (s : string) : bool :=
  match s with
  | EmptyString => true
  | String c s' => p c && string_forallb p s'
  end.

(** [needle in hay] *)
Fixpoint contains (needle hay : string) : bool :=
  String.prefix needle hay ||
  match hay with
  | EmptyString => false
  | String _ hay' => contains needle hay'
  end.

Fixpoint lstrip (s : string) : string :=
  match s with
  | EmptyString => EmptyString
  | String c s' => if is_space c then lstrip s' else s
  end.

Fixpoint rstrip (s : string) : string :=
  match s with
  | EmptyString => EmptyString
  | String c s' =>
      match rstrip s' with
      | EmptyString => if is_space c then EmptyString else String c EmptyString
      | r => String c r
      end
  end.

(** [s.strip()] *)
Definition strip (s : string) : string := rstrip (lstrip s).

(** Truthiness of a [str]. *)
Definition str_truthy (s : string) : bool :=
  match s with
  | EmptyString => false
  | String _ _ => true
  end.

(** ** NumericNormalizer: [_parse_decimal] *)

(** Value of a run of digits read as a natural number. *)
Fixpoint digits_value (acc : Z) (s : string) : Z :=
  match s with
  | EmptyString => acc
  | String c s' => digits_value (10 * acc + digit_value c)%Z s'
  end.

(** Split at the first ['.']: the part before it, and the part after
    it when there is one. *)
Fixpoint split_dot (s : string) : string * option string :=
  match s with
  | EmptyString => (EmptyString, None)
  | String c s' =>
      if Ascii.eqb c "." then (EmptyString, Some s')
      else let (a, b) := split_dot s' in (String c a, b)
  end.

Fixpoint pow10 (n : nat) : positive :=
  match n with
  | O => 1%positive
  | S n' => (10 * pow10 n')%positive
  end.

(** [Decimal(s)] for [s] over the alphabet left by the cleaning step
    (digits, ['.'], ['-']): an optional sign, then [digits '.' [digits]]
    or [['.'] digits].  [None] stands for [InvalidOperation]. *)
Definition decimal_unsigned (s : string) : option Q :=
  let (ip, fp) := split_dot s in
  let fp' := match fp with Some f => f | None => EmptyString end in
  if string_forallb is_digit ip && string_forallb is_digit fp'
     && negb (Nat.eqb (String.length ip + String.length fp') 0)
  then Some (Qmake (digits_value 0 (ip ++ fp')) (pow10 (String.length fp')))
  else None.

Definition Decimal (s : string) : option Q :=
  match s with
  | String "-" s' =>
      match decimal_unsigned s' with
      | Some q => Some (- q)
      | None => None
      end
  | _ => decimal_unsigned s
  end.

(** The class [[^\d.,\-]] of the cleaning regular expression, negated. *)
Definition is_numeric_char (c : ascii) : bool :=
  is_digit c || Ascii.eqb c "." || Ascii.eqb c "," || Ascii.eqb c "-".

Definition _parse_decimal (value : string) : Q :=
  if negb (str_truthy value) then 0
  else
    let clean_value := string_filter is_numeric_char value in
    let clean_value :=
      if string_mem "," clean_value && string_mem "." clean_value then
        string_filter (fun c => negb (Ascii.eqb c ",")) clean_value
      else if string_mem "," clean_value then
        string_map (fun c => if Ascii.eqb c "," then "."%char else c) clean_value
      else clean_value in
    match Decimal clean_value with
    | Some q => q
    | None => 0
    end.

(** ** Extractor, table strategy *)

(** [any(x in hay for x in keywords)] *)
Definition any_in (keywords : list string) (hay : string) : bool :=
  existsb (fun x => contains x hay) keywords.

(** [enumerate(l)] *)
Definition enumerate {A} (l : list A) : list (nat * A) :=
  combine (seq 0 (List.length l)) l.

(** One iteration of the loop of [_identify_columns]. *)
Definition identify_step (columns : dict nat) (ih : nat * string) : dict nat :=
  let (i, header) := ih in
  let header_lower := lower header in
  if any_in ["item"; "code"; "article"] header_lower then
    dict_set columns "item_code" i
  else if any_in ["desc"; "description"; "product"] header_lower then
    dict_set columns "description" i
  else if any_in ["qty"; "quantity"; "amount"] header_lower then
    dict_set columns "quantity" i
  else if any_in ["price"; "unit"] header_lower then
    dict_set columns "unit_price" i
  else if any_in ["total"; "sum"] header_lower then
    dict_set columns "total_price" i
  else columns.

Definition _identify_columns (header_row : list string) : dict nat :=
  fold_left identify_step (enumerate header_row) [].

(** [l[i]] for a non-negative index. *)
Definition list_index {A} (l : list A) (i : nat) : result A :=
  match nth_error l i with
  | Some x => Ok x
  | None => Raise IndexError
  end.

(** The body of the [try] block of [_parse_row]. *)
Definition _parse_row_try (row : list string) (column_indices : dict nat)
  : result (option Item) :=
  c_code <- list_index row (dict_get_default column_indices "item_code" 0%nat) ;;
  let item_code := strip c_code in
  c_desc <- list_index row (dict_get_default column_indices "description" 1%nat) ;;
  let description := strip c_desc in
  c_qty <- list_index row (dict_get_default column_indices "quantity" 2%nat) ;;
  let quantity := _parse_decimal c_qty in
  c_unit <- list_index row (dict_get_default column_indices "unit_price" 3%nat) ;;
  let unit_price := _parse_decimal c_unit in
  c_total <- list_index row (dict_get_default column_indices "total_price" 4%nat) ;;
  let total_price := _parse_decimal c_total in
  if str_truthy item_code && dec_truthy quantity && dec_truthy unit_price then
    Ok (Some (mkItem item_code description quantity unit_price
                (if dec_truthy total_price then total_price
                 else quantity * unit_price)))
  else Ok None.

(** [_parse_row]: any exception of the body is caught and gives [None]. *)
Definition _parse_row (row : list string) (column_indices : dict nat)
  : option Item :=
  match _parse_row_try row column_indices with
  | Ok r => r
  | Raise _ => None
  end.

Definition _process_table (table : list (list string)) : list Item :=
  match table with
  | [] => []
  | header_row :: rows =>
      let column_indices := _identify_columns header_row in
      if dict_is_empty column_indices then []
      else
        fold_left
          (fun items row =>
             match _parse_row row column_indices with
             | Some item => (items ++ [item])%list
             | None => items
             end)
          rows []
  end.

(** ** Reconciler: [compare_documents] *)

(** Object identities and the heap of [Item] objects. *)
Definition ref := nat.
Definition heap := ref -> Item.

Definition heap_set (h : heap) (r : ref) (it : Item) : heap :=
  fun r' => if Nat.eqb r' r then it else h r'.

Definition set_quantity (it : Item) (q : Q) : Item :=
  mkItem (item_code it) (description it) q (unit_price it) (total_price it).

Definition set_total_price (it : Item) (t : Q) : Item :=
  mkItem (item_code it) (description it) (quantity it) (unit_price it) t.

(** One iteration of the grouping loop: the dictionary holds references
    to the invoice Items themselves, and a repeated code is accumulated
    into the Item already stored. *)
Definition aggregate_step (st : heap * dict ref) (item : ref) : heap * dict ref :=
  let (h, invoice_items_dict) := st in
  match dict_get invoice_items_dict (item_code (h item)) with
  | Some existing =>
      let h1 :=
        heap_set h existing
          (set_quantity (h existing) (quantity (h existing) + quantity (h item))) in
      let h2 :=
        heap_set h1 existing
          (set_total_price (h1 existing)
             (total_price (h1 existing) + total_price (h1 item))) in
      (h2, invoice_items_dict)
  | None => (h, dict_set invoice_items_dict (item_code (h item)) item)
  end.

Arguments aggregate_step : simpl never.

Definition aggregate (h : heap) (invoice_items : list ref) : heap * dict ref :=
  fold_left aggregate_step invoice_items (h, []).

(** The status of an offer item found among the invoices. *)
Definition determine_status (self : PDFProcessor)
  (offer_item : Item) (quantity_diff price_diff : Q) : result string :=
  if negb (Qeq_bool quantity_diff 0) then Ok "quantity_mismatch"
  else
    ratio <- dec_div price_diff (unit_price offer_item) ;;
    if dec_gt (Qabs ratio) (price_tolerance self) then Ok "price_mismatch"
    else Ok "match".

(** One iteration of the loop over the offer items.  An [Item] object
    is always truthy, so [not invoice_item] holds exactly when the code
    is not a key of the dictionary. *)
Definition compare_offer_item (self : PDFProcessor) (h : heap)
  (invoice_items_dict : dict ref) (offer_item : ref) : result ComparisonResult :=
  match dict_get invoice_items_dict (item_code (h offer_item)) with
  | None =>
      Ok (mkComparisonResult
            (item_code (h offer_item)) (description (h offer_item))
            (quantity (h offer_item)) 0
            (unit_price (h offer_item)) 0
            (quantity (h offer_item)) 0
            "missing")
  | Some invoice_item =>
      let quantity_diff := quantity (h offer_item) - quantity (h invoice_item) in
      let price_diff := unit_price (h offer_item) - unit_price (h invoice_item) in
      status <- determine_status self (h offer_item) quantity_diff price_diff ;;
      Ok (mkComparisonResult
            (item_code (h offer_item)) (description (h offer_item))
            (quantity (h offer_item)) (quantity (h invoice_item))
            (unit_price (h offer_item)) (unit_price (h invoice_item))
            quantity_diff price_diff status)
  end.

(** The loop over the offer items; the first exception ends it. *)
Fixpoint compare_offer_items (self : PDFProcessor) (h : heap)
  (invoice_items_dict : dict ref) (offer_items : list ref)
  : result (list ComparisonResult) :=
  match offer_items with
  | [] => Ok []
  | offer_item :: rest =>
      r <- compare_offer_item self h invoice_items_dict offer_item ;;
      rs <- compare_offer_items self h invoice_items_dict rest ;;
      Ok (r :: rs)
  end.

Definition mem_string (s : string) (l : list string) : bool :=
  existsb (String.eqb s) l.

Definition extra_result (it : Item) : ComparisonResult :=
  mkComparisonResult (item_code it) (description it)
    0 (quantity it) 0 (unit_price it)
    (- quantity it) (- unit_price it) "extra_item".

(** The loop over the values of the dictionary. *)
Definition extra_item_results (h : heap) (invoice_items_dict : dict ref)
  (offer_items : list ref) : list ComparisonResult :=
  let offer_item_codes := map (fun r => item_code (h r)) offer_items in
  map (fun r => extra_result (h r))
    (filter (fun r => negb (mem_string (item_code (h r)) offer_item_codes))
       (dict_values invoice_items_dict)).

(** [compare_documents]: the heap after the call, and the returned list
    or the exception raised. *)
Definition compare_documents (self : PDFProcessor) (h : heap)
  (offer_items invoice_items : list ref)
  : heap * result (list ComparisonResult) :=
  let (h', invoice_items_dict) := aggregate h invoice_items in
  (h',
   results <- compare_offer_items self h' invoice_items_dict offer_items ;;
   Ok (results ++ extra_item_results h' invoice_items_dict offer_items)%list).

(** ** SummaryAggregator: [generate_summary] *)

Record Summary : Type := mkSummary {
  total_items : nat;
  matches : nat;
  quantity_mismatches : nat;
  price_mismatches : nat;
  missing_items : nat;
  extra_items : nat;
  total_quantity_difference : Q;
  total_price_difference : Q
}.

(** One iteration of the loop of [generate_summary]. *)
Definition summary_step (summary : Summary) (result : ComparisonResult) : Summary :=
  let s1 :=
    if String.eqb (status result) "match" then
      mkSummary (total_items summary) (matches summary + 1)
        (quantity_mismatches summary) (price_mismatches summary)
        (missing_items summary) (extra_items summary)
        (total_quantity_difference summary) (total_price_difference summary)
    else if String.eqb (status result) "quantity_mismatch" then
      mkSummary (total_items summary) (matches summary)
        (quantity_mismatches summary + 1) (price_mismatches summary)
        (missing_items summary) (extra_items summary)
        (total_quantity_difference summary) (total_price_difference summary)
    else if String.eqb (status result) "price_mismatch" then
      mkSummary (total_items summary) (matches summary)
        (quantity_mismatches summary) (price_mismatches summary + 1)
        (missing_items summary) (extra_items summary)
        (total_quantity_difference summary) (total_price_difference summary)
    else if String.eqb (status result) "missing" then
      mkSummary (total_items summary) (matches summary)
        (quantity_mismatches summary) (price_mismatches summary)
        (missing_items summary + 1) (extra_items summary)
        (total_quantity_difference summary) (total_price_difference summary)
    else if String.eqb (status result) "extra_item" then
      mkSummary (total_items summary) (matches summary)
        (quantity_mismatches summary) (price_mismatches summary)
        (missing_items summary) (extra_items summary + 1)
        (total_quantity_difference summary) (total_price_difference summary)
    else summary in
  mkSummary (total_items s1) (matches s1)
    (quantity_mismatches s1) (price_mismatches s1)
    (missing_items s1) (extra_items s1)
    (total_quantity_difference s1 + Qabs (quantity_difference result))
    (total_price_difference s1 + Qabs (price_difference result)).

Definition generate_summary (results : list ComparisonResult) : Summary :=
  fold_left summary_step results
    (mkSummary (List.length results) 0 0 0 0 0 0 0).

(** * Concrete inputs and the notions the properties are stated with *)

(** ** Reconciler: concrete heaps *)

Module Runs.

Definition blank : Item := mkItem "" "" 0 0 0.

(** An offer line with a zero unit price, and an invoice line with
    the same code and quantity. *)
Definition zero_price_heap : heap :=
  fun r =>
    match r with
    | 0%nat => mkItem "A123" "Free sample" 5 0 0
    | 1%nat => mkItem "A123" "Free sample" 5 3 15
    | 2%nat => mkItem "A123" "Free sample" 5 0 0
    | _ => blank
    end.

(** Two partial deliveries of one code, and the offer line they
    fulfil. *)
Definition partial_heap : heap :=
  fun r =>
    match r with
    | 0%nat => mkItem "X" "Bolt" 6 10 60
    | 1%nat => mkItem "X" "Bolt" 4 10 40
    | 2%nat => mkItem "X" "Bolt" 10 10 100
    | _ => blank
    end.

End Runs.

(** ** Aggregation: first-appearance order and what it preserves *)

(** The codes of a list in order of first appearance. *)
Fixpoint distinct_codes (l : list string) : list string :=
  match l with
  | [] => []
  | c :: l' => c :: filter (fun c' => negb (String.eqb c' c)) (distinct_codes l')
  end.

Definition code_of (h : heap) (r : ref) : string := item_code (h r).

(** Aggregation changes quantities and totals only. *)
Definition same_static (h h' : heap) : Prop :=
  forall r,
    item_code (h' r) = item_code (h r) /\
    description (h' r) = description (h r) /\
    unit_price (h' r) = unit_price (h r).

(** Every entry of the dictionary is filed under the code of its Item. *)
Definition keyed (h : heap) (d : dict ref) : Prop :=
  Forall (fun kr => item_code (h (snd kr)) = fst kr) d.

(** Sum of a field over the Items of a list that carry a given code. *)
Fixpoint sum_for_code (f : Item -> Q) (h : heap) (c : string) (l : list ref) : Q :=
  match l with
  | [] => 0
  | r :: l' =>
      if String.eqb (item_code (h r)) c then f (h r) + sum_for_code f h c l'
      else sum_for_code f h c l'
  end.

(** The value of a field of the Item filed under a code, 0 when the code
    is not filed. *)
Definition stored (f : Item -> Q) (h : heap) (d : dict ref) (c : string) : Q :=
  match dict_get d c with
  | Some r => f (h r)
  | None => 0
  end.

Module StatusRuns.

(** Offer lines at 25.00 and 100, invoiced at 26.00, 98 and 97.99. *)
Definition price_heap : heap :=
  fun r =>
    match r with
    | 0%nat => mkItem "B456" "Test Item 2" 5 (2500 # 100) 125
    | 1%nat => mkItem "B456" "Test Item 2" 5 (2600 # 100) 130
    | 2%nat => mkItem "T" "Boundary" 1 100 100
    | 3%nat => mkItem "T" "Boundary" 1 98 98
    | 4%nat => mkItem "T" "Boundary" 1 (9799 # 100) (9799 # 100)
    | _ => mkItem "" "" 0 0 0
    end.

End StatusRuns.

Module OrderRuns.

(** Offer lines A and B; invoice lines B, C, B, D. *)
Definition mixed_heap : heap :=
  fun r =>
    match r with
    | 0%nat => mkItem "A" "Anchor" 1 10 10
    | 1%nat => mkItem "B" "Bolt" 5 2 10
    | 2%nat => mkItem "B" "Bolt" 3 2 6
    | 3%nat => mkItem "C" "Clamp" 7 4 28
    | 4%nat => mkItem "B" "Bolt" 2 2 4
    | 5%nat => mkItem "D" "Dowel" 9 1 9
    | 6%nat => mkItem "A" "Anchor again" 2 10 20
    | _ => mkItem "" "" 0 0 0
    end.

End OrderRuns.

(** ** SummaryAggregator: counts and sums *)

(** Number of results with a given status. *)
Definition count_status (s : string) (results : list ComparisonResult) : nat :=
  List.length (filter (fun r => String.eqb (status r) s) results).

(** Sum of the absolute values of a field over the results. *)
Fixpoint sum_abs (f : ComparisonResult -> Q) (results : list ComparisonResult) : Q :=
  match results with
  | [] => 0
  | r :: rs => Qabs (f r) + sum_abs f rs
  end.

Definition indicator (b : bool) : nat := if b then 1%nat else 0%nat.

(** ** Extractor: cells, parsed rows and header roles *)

(** The cell a row gives for a role: the column recorded for the role,
    or the positional default when none is recorded; [None] when the
    row has no such column ([IndexError]). *)
Definition cell (row : list string) (column_indices : dict nat)
  (role : string) (default : nat) : option string :=
  nth_error row (dict_get_default column_indices role default).

(** The loop of [_process_table] keeps, in order, the rows that parse. *)
Fixpoint parsed_rows (column_indices : dict nat) (rows : list (list string))
  : list Item :=
  match rows with
  | [] => []
  | row :: rows' =>
      match _parse_row row column_indices with
      | Some item => item :: parsed_rows column_indices rows'
      | None => parsed_rows column_indices rows'
      end
  end.

Module TableRuns.

Definition header : list string :=
  ["Item Code"; "Description"; "Qty"; "Unit Price"; "Total"].


(** A line whose quantity cell is a literal zero. *)
Definition zero_quantity_row : list string :=
  ["A123"; "Test Item 1"; "0"; "15.50"; "0.00"].

(** A header none of whose cells holds a keyword. *)
Definition plain_table : list (list string) :=
  [ ["No."; "Name"; "Pieces"; "Each"; "Net"];
    ["A123"; "Test Item 1"; "10"; "15.50"; "155.00"] ].

End TableRuns.

(** The vocabulary of each role, in the order the roles are tried. *)
Definition role_vocabulary : list (string * list string) :=
  [ ("item_code", ["item"; "code"; "article"]);
    ("description", ["desc"; "description"; "product"]);
    ("quantity", ["qty"; "quantity"; "amount"]);
    ("unit_price", ["price"; "unit"]);
    ("total_price", ["total"; "sum"]) ].

(** The role of a header cell: the first role one of whose keywords
    occurs in the lower-cased cell. *)
Definition header_role (header : string) : option string :=
  option_map fst
    (find (fun rk => any_in (snd rk) (lower header)) role_vocabulary).

Definition has_role (role : string) (header : string) : bool :=
  match header_role header with
  | Some r => String.eqb r role
  | None => false
  end.

(** The last position, counted from [n], of a header cell with the role. *)
Fixpoint last_index (role : string) (headers : list string) (n : nat) : option nat :=
  match headers with
  | [] => None
  | header :: rest =>
      match last_index role rest (S n) with
      | Some i => Some i
      | None => if has_role role header then Some n else None
      end
  end.

Definition no_role (header : string) : bool :=
  match header_role header with
  | Some _ => false
  | None => true
  end.

(** ** Reconciler: rows for the edge cases *)

(** The row of an offer Item whose code no invoice carries. *)
Definition missing_result (it : Item) : ComparisonResult :=
  mkComparisonResult (item_code it) (description it)
    (quantity it) 0 (unit_price it) 0 (quantity it) 0 "missing".

(** The row of an Item compared with itself. *)
Definition self_result (it : Item) : ComparisonResult :=
  mkComparisonResult (item_code it) (description it)
    (quantity it) (quantity it) (unit_price it) (unit_price it)
    (quantity it - quantity it) (unit_price it - unit_price it) "match".

(** The dictionary entry of an invoice Item. *)
Definition entry_of (h : heap) (r : ref) : string * ref := (item_code (h r), r).

(** ** The caller [examples/case1_perfect_match/run_example.py] *)

(** [sum(xs)]: the additions start from 0 and go left to right. *)
Definition py_sum (xs : list Q) : Q := fold_left Qplus xs 0.

(** The summary [run_example.py] builds from the results, by list
    comprehensions. *)
Definition run_example_summary (results : list ComparisonResult) : Summary :=
  mkSummary
    (List.length results)
    (List.length (filter (fun r => String.eqb (status r) "match") results))
    (List.length (filter (fun r => String.eqb (status r) "quantity_mismatch") results))
    (List.length (filter (fun r => String.eqb (status r) "price_mismatch") results))
    (List.length (filter (fun r => String.eqb (status r) "missing") results))
    (List.length (filter (fun r => String.eqb (status r) "extra_item") results))
    (py_sum (map (fun r => Qabs (quantity_difference r)) results))
    (py_sum (map (fun r => Qabs (price_difference r)) results)).

(** The five statuses [compare_documents] writes. *)
Definition known_status (s : string) : bool :=
  String.eqb s "match" || String.eqb s "quantity_mismatch"
  || String.eqb s "price_mismatch" || String.eqb s "missing"
  || String.eqb s "extra_item".

Definition has_status (s : string) (results : list ComparisonResult) : bool :=
  existsb (fun r => String.eqb (status r) s) results.

Definition all_status (s : string) (results : list ComparisonResult) : bool :=
  forallb (fun r => String.eqb (status r) s) results.

(** ** [src/notifier.py] *)

Record NotificationConfig : Type := mkNotificationConfig {
  webhook_url : string;
  channel : string;
  notify_price_discrepancies : bool;
  notify_quantity_mismatches : bool;
  notify_missing_items : bool;
  notify_successful_comparisons : bool;
  price_threshold : Q;
  quantity_threshold : Z
}.

(** [a >= b] *)
Definition dec_ge (a b : Q) : bool := Qle_bool b a.

(** [SlackNotifier._should_send_notification], on the summary record. *)
Definition _should_send_notification (config : NotificationConfig)
  (summary : Summary) : bool :=
  if notify_missing_items config && (0 <? missing_items summary)%nat then true
  else if notify_quantity_mismatches config
          && (0 <? quantity_mismatches summary)%nat
          && dec_ge (total_quantity_difference summary)
               (inject_Z (quantity_threshold config)) then true
  else if notify_price_discrepancies config
          && (0 <? price_mismatches summary)%nat
          && dec_ge (total_price_difference summary) (price_threshold config) then true
  else if notify_successful_comparisons config
          && (matches summary =? total_items summary)%nat then true
  else false.

(** [path.split('/')]: never empty. *)
Fixpoint split_slash (path : string) : list string :=
  match path with
  | EmptyString => [EmptyString]
  | String c path' =>
      if Ascii.eqb c "/" then EmptyString :: split_slash path'
      else
        match split_slash path' with
        | [] => [String c EmptyString]
        | part :: parts => String c part :: parts
        end
  end.

(** [SlackNotifier._format_path]: [path.split('/')[-1]]. *)
Definition _format_path (path : string) : string :=
  last (split_slash path) EmptyString.

(** The configuration [run_example.py] passes to the notifier. *)
Definition run_example_config : NotificationConfig :=
  mkNotificationConfig "https://hooks.example/T" "#pdf-comparison-alerts"
    true true true true 0 0.

(** ** NumericNormalizer: the two rewritings of separators *)

Definition comma_to_dot (c : ascii) : ascii :=
  if Ascii.eqb c "," then "."%char else c.

Definition not_comma (c : ascii) : bool := negb (Ascii.eqb c ",").

(** The five role names. *)
Definition role_names : list string := map fst role_vocabulary.

(** The steps of [_parse_decimal] after the cleaning step. *)
Definition normalize_clean (clean_value : string) : Q :=
  let clean_value :=
    if string_mem "," clean_value && string_mem "." clean_value then
      string_filter not_comma clean_value
    else if string_mem "," clean_value then
      string_map comma_to_dot clean_value
    else clean_value in
  match Decimal clean_value with
  | Some q => q
  | None => 0
  end.

(** ** Extractor, text strategy: [_process_text] *)

(** The character classes of the pattern: [[A-Z0-9-]], [[^0-9\n]];
    [\s] is [is_space] and [\d] is [is_digit]. *)
Definition is_code_char (c : ascii) : bool :=
  let n := nat_of_ascii c in
  ((65 <=? n)%nat && (n <=? 90)%nat) || is_digit c || Ascii.eqb c "-".

Definition is_desc_char (c : ascii) : bool :=
  negb (is_digit c) && negb (Nat.eqb (nat_of_ascii c) 10).

(** [cls+] followed by the rest of the pattern [k], as the backtracking
    matcher of [re] runs it: as many characters as possible first, then
    one fewer each time the rest of the pattern fails.  [k] receives the
    text matched and the text left. *)
Fixpoint re_plus {A} (cls : ascii -> bool) (k : string -> string -> option A)
  (s : string) : option A :=
  match s with
  | EmptyString => None
  | String c s' =>
      if cls c then
        match re_plus cls (fun m rest => k (String c m) rest) s' with
        | Some r => Some r
        | None => k (String c EmptyString) s'
        end
      else None
  end.

(** [\d+(?:\.\d+)?] followed by [k]: the optional group is tried first. *)
Definition re_number {A} (k : string -> string -> option A) (s : string) : option A :=
  re_plus is_digit
    (fun int_part rest =>
       match
         match rest with
         | String "." rest' =>
             re_plus is_digit
               (fun frac_part rest'' => k (int_part ++ "." ++ frac_part) rest'')
               rest'
         | _ => None
         end
       with
       | Some r => Some r
       | None => k int_part rest
       end)
    s.

(** The groups of a match. *)
Record TextMatch : Type := mkTextMatch {
  g_item_code : string;
  g_description : string;
  g_quantity : string;
  g_unit_price : string
}.

(** The pattern matched at the start of [s]: the groups and the text
    left after the match. *)
Definition match_item_pattern (s : string) : option (TextMatch * string) :=
  re_plus is_code_char (fun item_code r1 =>
  re_plus is_space (fun _ r2 =>
  re_plus is_desc_char (fun description r3 =>
  re_plus is_space (fun _ r4 =>
  re_number (fun quantity r5 =>
  re_plus is_space (fun _ r6 =>
  re_number (fun unit_price r7 =>
    Some (mkTextMatch item_code description quantity unit_price, r7))
  r6) r5) r4) r3) r2) r1) s.

(** [re.finditer(pattern, text)]: the matches from left to right, each
    search starting where the previous match ended.  [skip] counts the
    characters of the text that the previous match still covers. *)
Fixpoint finditer_from (skip : nat) (text : string) : list TextMatch :=
  match text with
  | EmptyString => []
  | String _ text' =>
      match skip with
      | S n => finditer_from n text'
      | O =>
          match match_item_pattern text with
          | Some (m, rest) =>
              m :: finditer_from (String.length text - String.length rest - 1) text'
          | None => finditer_from 0 text'
          end
      end
  end.

Definition finditer (text : string) : list TextMatch := finditer_from 0 text.

(** The body of the [try] block of [_process_text]: [None] when a
    [Decimal] constructor raises. *)
Definition item_of_match (m : TextMatch) : option Item :=
  match Decimal (g_quantity m), Decimal (g_unit_price m) with
  | Some quantity, Some unit_price =>
      Some (mkItem (g_item_code m) (strip (g_description m))
              quantity unit_price (quantity * unit_price))
  | _, _ => None
  end.

Definition _process_text (text : string) : list Item :=
  fold_left
    (fun items m =>
       match item_of_match m with
       | Some item => (items ++ [item])%list
       | None => items
       end)
    (finditer text) [].

(** ** Extractor: [extract_items_from_pdf] *)

(** A page of the opened document: what [extract_tables()] and
    [extract_text()] give, or the exception they raise.  A text of
    [None] is a [Raise] here: [re.finditer] raises on it. *)
Record Page : Type := mkPage {
  extract_tables : result (list (list (list string)));
  extract_text : result string
}.

(** The loop over the pages; [None] when an exception was raised. *)
Fixpoint extract_pages (pages : list Page) (items : list Item) : option (list Item) :=
  match pages with
  | [] => Some items
  | page :: pages' =>
      match extract_tables page with
      | Raise _ => None
      | Ok tables =>
          let items :=
            fold_left (fun items table => (items ++ _process_table table)%list)
              tables items in
          match extract_text page with
          | Raise _ => None
          | Ok text => extract_pages pages' (items ++ _process_text text)%list
          end
      end
  end.

(** [extract_items_from_pdf], on the result of opening the document. *)
Definition extract_items_from_pdf (pdf : result (list Page)) : list Item :=
  match pdf with
  | Raise _ => []
  | Ok pages =>
      match extract_pages pages [] with
      | Some items => items
      | None => []
      end
  end.



(** The Items of one page: those of its tables, in order, followed by
    those of its text; [None] when reading the page raises. *)
Definition page_items (page : Page) : option (list Item) :=
  match extract_tables page, extract_text page with
  | Ok tables, Ok text => Some (flat_map _process_table tables ++ _process_text text)%list
  | _, _ => None
  end.

Definition items_or_nil (o : option (list Item)) : list Item :=
  match o with
  | Some items => items
  | None => []
  end.

Module DocumentRuns.


(** The Item of that line at reference 0, and an invoice Item. *)
Definition offer_heap : heap :=
  fun r =>
    match r with
    | 0%nat => mkItem "A123" "Test Item 1" (10 # 1) (1550 # 100) (15500 # 100)
    | _ => mkItem "A123" "Test Item 1" 10 (1550 # 100) 155
    end.

(** A document whose second page cannot be read. *)
Definition broken_pdf : result (list Page) :=
  Ok [mkPage (Ok [[TableRuns.header;
                   ["A123"; "Test Item 1"; "10"; "15.50"; "155.00"]]])
             (Ok "");
      mkPage (Raise IndexError) (Ok "")].

End DocumentRuns.

(** * Tests of the repository, run on the model *)

Example parse_us : _parse_decimal "1,234.56" = 123456 # 100.
Proof. reflexivity. Qed.
Example parse_eu : _parse_decimal "1.234,56" = 123456 # 100000.
Proof. reflexivity. Qed.
Example parse_euro : _parse_decimal "€1,234.56" = 123456 # 100.
Proof. reflexivity. Qed.
Example parse_invalid : _parse_decimal "invalid" = 0.
Proof. reflexivity. Qed.
Example parse_comma : _parse_decimal "1234,56" = 123456 # 100.
Proof. reflexivity. Qed.
Example parse_neg : _parse_decimal "-.5" = -5 # 10.
Proof. reflexivity. Qed.

Example decimal_syntax :
  Decimal "5." = Some (5 # 1) /\ Decimal ".5" = Some (5 # 10) /\
  Decimal "007" = Some (7 # 1) /\ Decimal "-0" = Some (- (0 # 1)) /\
  Decimal "" = None /\ Decimal "-" = None /\ Decimal "." = None /\
  Decimal "1.2.3" = None /\ Decimal "--1" = None /\ Decimal "1-2" = None.
Proof. repeat split. Qed.

Example strip_cell : strip "  A123 	" = "A123" /\ strip "   " = "".
Proof. split; reflexivity. Qed.

Example process_table_test :
  map item_code
    (_process_table
       [ ["Item Code"; "Description"; "Qty"; "Unit Price"; "Total"];
         ["A123"; "Test Item 1"; "10"; "15.50"; "155.00"];
         ["B456"; "Test Item 2"; "5"; "25.00"; "125.00"] ])
  = ["A123"; "B456"].
Proof. reflexivity. Qed.

Example identify_columns_test :
  _identify_columns
    ["Item Number"; "Product Description"; "Quantity"; "Price/Unit"; "Line Total"]
  = [("item_code", 0); ("description", 1); ("quantity", 2);
     ("unit_price", 3); ("total_price", 4)]%nat.
Proof. reflexivity. Qed.

(** * Properties *)

(** ** NumericNormalizer *)

(** C2.  The normaliser returns a value on every string, and gives 0 on
    ["invalid"] and on the empty string and 1234.56 on ["1,234.56"] and
    ["€1,234.56"]; but on the European form ["1.234,56"], where both
    separators occur, the comma is the one removed and the result is
    1.23456, not 1234.56 as [test_parse_decimal] expects. *)
Theorem parse_decimal_european_form :
  _parse_decimal "1,234.56" == 123456 # 100 /\
  _parse_decimal "€1,234.56" == 123456 # 100 /\
  _parse_decimal "invalid" == 0 /\
  _parse_decimal "" == 0 /\
  _parse_decimal "1.234,56" == 123456 # 100000 /\
  ~ _parse_decimal "1.234,56" == _parse_decimal "1,234.56".
Proof.
  repeat split; try reflexivity.
  vm_compute. discriminate.
Qed.

(** C1.  The tolerance test divides by the offer unit price without a
    guard: an offer item with unit price 0 whose code is invoiced with
    the same quantity makes [compare_documents] raise ([DivisionByZero],
    or [InvalidOperation] when the invoiced price is 0 too) instead of
    returning a ['match'] row. *)
Theorem compare_documents_zero_offer_price_raises :
  snd (compare_documents PDFProcessor_init Runs.zero_price_heap [0%nat] [1%nat])
    = Raise DivisionByZero /\
  snd (compare_documents PDFProcessor_init Runs.zero_price_heap [0%nat] [2%nat])
    = Raise InvalidOperation.
Proof. split; reflexivity. Qed.

(** C3.  Aggregation accumulates into the first invoice Item of a code
    itself: after one call on two partial deliveries (6 and 4) the first
    invoice Item holds quantity 10 and total 100, and a second call with
    the same arguments sees 14 delivered and reports a quantity mismatch
    where the first call reported a match. *)
Theorem compare_documents_mutates_invoice_item :
  let run1 := compare_documents PDFProcessor_init Runs.partial_heap [2%nat] [0%nat; 1%nat] in
  let run2 := compare_documents PDFProcessor_init (fst run1) [2%nat] [0%nat; 1%nat] in
  quantity (Runs.partial_heap 0%nat) = 6 /\
  quantity (fst run1 0%nat) == 10 /\
  total_price (fst run1 0%nat) == 100 /\
  fst run1 1%nat = Runs.partial_heap 1%nat /\
  (exists rs, snd run1 = Ok rs /\ map status rs = ["match"] /\
              map delivered_quantity rs = [6 + 4]) /\
  quantity (fst run2 0%nat) == 14 /\
  (exists rs, snd run2 = Ok rs /\ map status rs = ["quantity_mismatch"] /\
              map delivered_quantity rs = [6 + 4 + 4]).
Proof.
  cbv zeta.
  repeat split; try reflexivity.
  - eexists. repeat split; reflexivity.
  - eexists. repeat split; reflexivity.
Qed.

(** ** Dictionaries *)

Section DictFacts.
Context {V : Type}.
Implicit Types (d : dict V) (k : string) (v : V).

Lemma mem_string_In k (l : list string) : mem_string k l = true <-> In k l.
Proof.
  unfold mem_string. rewrite existsb_exists. split.
  - intros [x [Hin Heq]]. apply String.eqb_eq in Heq. now subst.
  - intros Hin. exists k. split; [assumption | apply String.eqb_refl].
Qed.

Lemma mem_string_false k (l : list string) : mem_string k l = false <-> ~ In k l.
Proof.
  rewrite <- mem_string_In. destruct (mem_string k l); split; congruence.
Qed.

Lemma dict_get_none d k : dict_get d k = None <-> ~ In k (dict_keys d).
Proof.
  induction d as [|[k' v'] d IH]; simpl.
  - tauto.
  - destruct (String.eqb_spec k' k) as [->|Hne].
    + split; [discriminate | intros H; exfalso; apply H; now left].
    + rewrite IH. tauto.
Qed.

Lemma dict_get_some_in d k v : dict_get d k = Some v -> In (k, v) d.
Proof.
  induction d as [|[k' v'] d IH]; simpl; [discriminate|].
  destruct (String.eqb_spec k' k) as [->|Hne].
  - intros [= ->]. now left.
  - intros H. right. now apply IH.
Qed.

Lemma dict_set_fresh d k v : dict_get d k = None -> dict_set d k v = (d ++ [(k, v)])%list.
Proof.
  induction d as [|[k' v'] d IH]; simpl; [reflexivity|].
  destruct (String.eqb k' k); [discriminate|].
  intros H. now rewrite IH.
Qed.

Lemma dict_get_in_nodup d k v :
  NoDup (dict_keys d) -> In (k, v) d -> dict_get d k = Some v.
Proof.
  induction d as [|[k' v'] d IH]; simpl; [tauto|].
  intros Hnd [Heq | Hin].
  - injection Heq as -> ->. now rewrite String.eqb_refl.
  - inversion Hnd as [|? ? Hnotin Hnd']; subst.
    destruct (String.eqb_spec k' k) as [->|Hne].
    + exfalso. apply Hnotin. unfold dict_keys.
      change k with (fst (k, v)). now apply in_map.
    + now apply IH.
Qed.
End DictFacts.

Lemma distinct_codes_In c l : In c (distinct_codes l) <-> In c l.
Proof.
  induction l as [|a l IH]; simpl; [tauto|].
  rewrite filter_In, IH.
  destruct (String.eqb_spec c a) as [->|Hne]; simpl.
  - split; auto.
  - split.
    + intros [H | [H _]]; auto.
    + intros [H | H]; [now left | right; now split].
Qed.

Lemma distinct_codes_NoDup l : NoDup (distinct_codes l).
Proof.
  induction l as [|a l IH]; simpl; constructor.
  - rewrite filter_In. intros [_ H]. now rewrite String.eqb_refl in H.
  - now apply NoDup_filter.
Qed.

Lemma same_static_refl h : same_static h h.
Proof. intros r. auto. Qed.

Lemma same_static_trans h1 h2 h3 :
  same_static h1 h2 -> same_static h2 h3 -> same_static h1 h3.
Proof.
  intros H12 H23 r. destruct (H12 r) as (? & ? & ?), (H23 r) as (? & ? & ?).
  repeat split; congruence.
Qed.

Lemma aggregate_step_static (h : heap) (d : dict ref) (r : ref) :
  same_static h (fst (aggregate_step (h, d) r)).
Proof.
  unfold aggregate_step.
  destruct (dict_get d (item_code (h r))) as [e|]; simpl.
  - intros r'. unfold heap_set.
    destruct (Nat.eqb_spec r' e) as [->|Hne]; simpl.
    + rewrite Nat.eqb_refl. simpl. auto.
    + auto.
  - apply same_static_refl.
Qed.

Lemma aggregate_fold_static inv : forall h d,
  same_static h (fst (fold_left aggregate_step inv (h, d))).
Proof.
  induction inv as [|r inv IH]; intros h d; simpl.
  - apply same_static_refl.
  - pose proof (aggregate_step_static h d r) as Hs.
    destruct (aggregate_step (h, d) r) as [h1 d1]. simpl in Hs.
    eapply same_static_trans; [exact Hs | apply IH].
Qed.

Lemma aggregate_static h inv : same_static h (fst (aggregate h inv)).
Proof. apply aggregate_fold_static. Qed.

Lemma keyed_static h h' d : same_static h h' -> keyed h d -> keyed h' d.
Proof.
  intros Hs. unfold keyed. apply Forall_impl.
  intros [k r]; simpl. destruct (Hs r) as (-> & _). auto.
Qed.

Lemma filter_filter {A} (p q : A -> bool) (l : list A) :
  filter p (filter q l) = filter (fun x => q x && p x) l.
Proof.
  induction l as [|a l IH]; simpl; [reflexivity|].
  destruct (q a); simpl; [destruct (p a)|]; now rewrite IH.
Qed.

Lemma aggregate_step_some (h : heap) (d : dict ref) (r e : ref) :
  dict_get d (item_code (h r)) = Some e ->
  exists h2, aggregate_step (h, d) r = (h2, d) /\ same_static h h2.
Proof.
  intros Hget. pose proof (aggregate_step_static h d r) as Hs.
  unfold aggregate_step in *. rewrite Hget in *.
  eexists. split; [reflexivity | exact Hs].
Qed.

Lemma aggregate_step_none (h : heap) (d : dict ref) (r : ref) :
  dict_get d (item_code (h r)) = None ->
  aggregate_step (h, d) r = (h, dict_set d (item_code (h r)) r).
Proof. unfold aggregate_step. now intros ->. Qed.

Lemma aggregate_fold_keys inv : forall h d,
  keyed h d -> NoDup (dict_keys d) ->
  let st := fold_left aggregate_step inv (h, d) in
  keyed (fst st) (snd st) /\
  dict_keys (snd st)
  = (dict_keys d
     ++ filter (fun c => negb (mem_string c (dict_keys d)))
          (distinct_codes (map (code_of h) inv)))%list.
Proof.
  induction inv as [|r inv IH]; intros h d Hk Hnd; simpl.
  - split; [assumption | now rewrite app_nil_r].
  - destruct (dict_get d (item_code (h r))) as [e|] eqn:Hget.
    + destruct (aggregate_step_some h d r e Hget) as (h2 & Hstep & Hs).
      rewrite Hstep.
      destruct (IH h2 d (keyed_static _ _ _ Hs Hk) Hnd) as [IH1 IH2].
      split; [exact IH1|].
      rewrite IH2. f_equal.
      assert (Hin : mem_string (code_of h r) (dict_keys d) = true).
      { apply mem_string_In. apply dict_get_some_in in Hget.
        change (code_of h r) with (fst (code_of h r, e)). now apply in_map. }
      rewrite Hin. simpl.
      rewrite filter_filter.
      assert (Hmap : map (code_of h2) inv = map (code_of h) inv).
      { apply map_ext. intros a. unfold code_of. now destruct (Hs a). }
      rewrite Hmap. apply filter_ext. intros c.
      destruct (String.eqb_spec c (code_of h r)) as [->|Hne]; simpl.
      * now rewrite Hin.
      * reflexivity.
    + rewrite (aggregate_step_none _ _ _ Hget).
      rewrite (dict_set_fresh _ _ _ Hget).
      assert (Hnotin : ~ In (code_of h r) (dict_keys d)) by now apply dict_get_none.
      assert (Hk' : keyed h (d ++ [(item_code (h r), r)])%list).
      { unfold keyed. apply Forall_app. split; [exact Hk|]. now constructor. }
      assert (Hnd' : NoDup (dict_keys (d ++ [(item_code (h r), r)])%list)).
      { unfold dict_keys. rewrite map_app. simpl.
        apply NoDup_app; auto.
        - constructor; [intros [] | constructor].
        - intros x Hx [<- | []]. now apply Hnotin. }
      destruct (IH h _ Hk' Hnd') as [IH1 IH2].
      split; [exact IH1|].
      rewrite IH2. unfold dict_keys at 1 2. rewrite map_app. simpl.
      rewrite <- app_assoc. simpl. f_equal.
      apply mem_string_false in Hnotin. fold (code_of h r). rewrite Hnotin. simpl.
      f_equal. rewrite filter_filter. apply filter_ext. intros c.
      unfold mem_string. rewrite existsb_app. simpl.
      rewrite orb_false_r, negb_orb. rewrite andb_comm. f_equal.
Qed.

Lemma filter_all {A} (p : A -> bool) (l : list A) :
  (forall x, p x = true) -> filter p l = l.
Proof.
  intros Hp. induction l as [|a l IH]; simpl; [reflexivity|].
  now rewrite Hp, IH.
Qed.

Lemma aggregate_keys h inv :
  keyed (fst (aggregate h inv)) (snd (aggregate h inv)) /\
  dict_keys (snd (aggregate h inv)) = distinct_codes (map (code_of h) inv).
Proof.
  destruct (aggregate_fold_keys inv h []) as [H1 H2].
  - constructor.
  - constructor.
  - split; [exact H1|].
    etransitivity; [exact H2|]. simpl. now apply filter_all.
Qed.

Lemma keyed_values_codes h (d : dict ref) :
  keyed h d -> map (code_of h) (dict_values d) = dict_keys d.
Proof.
  induction 1 as [|[k r] d Hkr _ IH]; simpl; [reflexivity|].
  simpl in Hkr. unfold code_of at 1. now rewrite Hkr, IH.
Qed.

(** ** The offer loop *)

Lemma compare_offer_items_Forall2 self h d offer : forall rs,
  compare_offer_items self h d offer = Ok rs ->
  Forall2 (fun o e => compare_offer_item self h d o = Ok e) offer rs.
Proof.
  induction offer as [|o offer IH]; simpl; intros rs H.
  - injection H as <-. constructor.
  - destruct (compare_offer_item self h d o) as [e|] eqn:He; simpl in H; [|discriminate].
    destruct (compare_offer_items self h d offer) as [rs'|]; simpl in H; [|discriminate].
    injection H as <-. constructor; auto.
Qed.

Lemma compare_offer_item_code self h d o e :
  compare_offer_item self h d o = Ok e ->
  res_item_code e = item_code (h o) /\
  res_description e = description (h o) /\
  offer_quantity e = quantity (h o) /\
  offer_price e = unit_price (h o).
Proof.
  unfold compare_offer_item.
  destruct (dict_get d (item_code (h o))) as [i|].
  - destruct (determine_status _ _ _ _); simpl; [|discriminate].
    intros [= <-]. simpl. auto.
  - intros [= <-]. simpl. auto.
Qed.


Lemma compare_offer_items_codes self h d offer rs :
  compare_offer_items self h d offer = Ok rs ->
  map res_item_code rs = map (code_of h) offer.
Proof.
  intros H. apply compare_offer_items_Forall2 in H.
  induction H as [|o e offer rs Hoe _ IH]; simpl; [reflexivity|].
  apply compare_offer_item_code in Hoe. destruct Hoe as (-> & _).
  now rewrite IH.
Qed.

(** The offer loop returns whenever no offer item has a zero price. *)
Lemma compare_offer_item_returns self h d o :
  ~ unit_price (h o) == 0 ->
  exists e, compare_offer_item self h d o = Ok e.
Proof.
  intros Hup. unfold compare_offer_item.
  destruct (dict_get d (item_code (h o))) as [i|]; [|eauto].
  unfold determine_status, dec_div.
  destruct (negb (Qeq_bool _ 0)); simpl; [eauto|].
  destruct (Qeq_bool (unit_price (h o)) 0) eqn:Hz.
  - apply Qeq_bool_iff in Hz. contradiction.
  - simpl. destruct (dec_gt _ _); simpl; eauto.
Qed.

Lemma compare_offer_items_returns self h d offer :
  Forall (fun o => ~ unit_price (h o) == 0) offer ->
  exists rs, compare_offer_items self h d offer = Ok rs.
Proof.
  induction 1 as [|o offer Ho _ [rs IH]]; simpl; [eauto|].
  destruct (compare_offer_item_returns self h d o Ho) as [e ->].
  rewrite IH. simpl. eauto.
Qed.

(** ** The invoice-only loop *)

Lemma extra_item_results_codes h (d : dict ref) offer :
  keyed h d ->
  map res_item_code (extra_item_results h d offer)
  = filter (fun c => negb (mem_string c (map (code_of h) offer))) (dict_keys d).
Proof.
  unfold extra_item_results, dict_values, dict_keys, keyed.
  induction 1 as [|[k r] d Hkr _ IH]; simpl; [reflexivity|].
  simpl in Hkr. rewrite Hkr. unfold code_of at 1.
  destruct (negb (mem_string k _)); simpl; rewrite IH; [|reflexivity].
  now rewrite Hkr.
Qed.

(** ** [compare_documents] as a whole *)

Lemma compare_documents_unfold self h offer inv :
  compare_documents self h offer inv
  = (fst (aggregate h inv),
     results <- compare_offer_items self (fst (aggregate h inv))
                  (snd (aggregate h inv)) offer ;;
     Ok (results
         ++ extra_item_results (fst (aggregate h inv)) (snd (aggregate h inv)) offer)%list).
Proof.
  unfold compare_documents. now destruct (aggregate h inv).
Qed.

Lemma compare_documents_split self h offer inv rs :
  snd (compare_documents self h offer inv) = Ok rs ->
  exists offer_rs,
    compare_offer_items self (fst (aggregate h inv)) (snd (aggregate h inv)) offer
      = Ok offer_rs /\
    rs = (offer_rs
          ++ extra_item_results (fst (aggregate h inv)) (snd (aggregate h inv)) offer)%list.
Proof.
  rewrite compare_documents_unfold. simpl.
  destruct (compare_offer_items _ _ _ _) as [offer_rs|]; simpl; [|discriminate].
  intros [= <-]. eauto.
Qed.

Lemma code_of_aggregate h inv r :
  code_of (fst (aggregate h inv)) r = code_of h r.
Proof. unfold code_of. now destruct (aggregate_static h inv r). Qed.

Lemma compare_documents_codes self h offer inv rs :
  snd (compare_documents self h offer inv) = Ok rs ->
  map res_item_code rs
  = (map (code_of h) offer
     ++ filter (fun c => negb (mem_string c (map (code_of h) offer)))
          (distinct_codes (map (code_of h) inv)))%list.
Proof.
  intros H. apply compare_documents_split in H. destruct H as (ors & Hors & ->).
  destruct (aggregate_keys h inv) as [Hk Hkeys].
  rewrite map_app, (compare_offer_items_codes _ _ _ _ _ Hors).
  rewrite (extra_item_results_codes _ _ _ Hk), Hkeys.
  rewrite (map_ext _ _ (code_of_aggregate h inv)). reflexivity.
Qed.

Lemma compare_documents_returns self h offer inv :
  Forall (fun o => ~ unit_price (h o) == 0) offer ->
  exists rs, snd (compare_documents self h offer inv) = Ok rs.
Proof.
  intros Hall. rewrite compare_documents_unfold. simpl.
  destruct (compare_offer_items_returns self (fst (aggregate h inv))
              (snd (aggregate h inv)) offer) as [rs ->].
  - revert Hall. apply Forall_impl. intros o.
    now destruct (aggregate_static h inv o) as (_ & _ & ->).
  - simpl. eauto.
Qed.

(** ** Classification of an offer item *)


Lemma dec_gt_false a b : dec_gt a b = false <-> a <= b.
Proof.
  unfold dec_gt. rewrite negb_false_iff. apply Qle_bool_iff.
Qed.

Lemma Qeq_bool_false a b : Qeq_bool a b = false <-> ~ a == b.
Proof.
  rewrite <- Qeq_bool_iff. destruct (Qeq_bool a b); split; congruence.
Qed.




Example tolerance_boundary_is_match :
  option_map (map status)
    (match snd (compare_documents PDFProcessor_init StatusRuns.price_heap
                  [2%nat] [3%nat]) with Ok rs => Some rs | Raise _ => None end)
  = Some ["match"].
Proof. reflexivity. Qed.

Example above_tolerance_is_mismatch :
  option_map (map status)
    (match snd (compare_documents PDFProcessor_init StatusRuns.price_heap
                  [2%nat] [4%nat]) with Ok rs => Some rs | Raise _ => None end)
  = Some ["price_mismatch"].
Proof. reflexivity. Qed.

(** ** Shape of the output of [compare_documents] *)






(** ** One row per code *)

(** C4 (counterexample).  Two offer Items with the code ["A"] and no
    invoice give two rows with the code ["A"]. *)
Lemma compare_documents_duplicate_offer_code :
  exists rs,
    snd (compare_documents PDFProcessor_init OrderRuns.mixed_heap
           [0; 6]%nat []) = Ok rs /\
    map res_item_code rs = ["A"; "A"] /\
    ~ NoDup (map res_item_code rs).
Proof.
  eexists. split; [reflexivity|]. split; [reflexivity|].
  intros Hnd. inversion Hnd as [|? ? Hnotin _]. apply Hnotin. now left.
Qed.

Lemma count_occ_NoDup_In (l : list string) c :
  NoDup l -> In c l -> count_occ string_dec l c = 1%nat.
Proof.
  intros Hnd Hin.
  pose proof (proj1 (NoDup_count_occ string_dec l) Hnd c).
  pose proof (proj1 (count_occ_In string_dec l c) Hin). lia.
Qed.

(** C4 (as the code has it).  When [compare_documents] returns, the
    codes of its rows are exactly the codes of the two inputs; a code of
    the offer has as many rows as the offer has items with that code, a
    code of the invoices alone has one row; so the rows have pairwise
    distinct codes whenever the offer items have. *)
Theorem compare_documents_code_coverage self (h : heap) offer inv rs :
  snd (compare_documents self h offer inv) = Ok rs ->
  let offer_codes := map (code_of h) offer in
  let invoice_codes := map (code_of h) inv in
  let out_codes := map res_item_code rs in
  (forall c, In c out_codes <-> In c offer_codes \/ In c invoice_codes) /\
  (forall c, In c offer_codes ->
     count_occ string_dec out_codes c = count_occ string_dec offer_codes c) /\
  (forall c, ~ In c offer_codes -> In c invoice_codes ->
     count_occ string_dec out_codes c = 1%nat) /\
  (NoDup offer_codes -> NoDup out_codes).
Proof.
  intros Hrun offer_codes invoice_codes out_codes.
  pose proof (compare_documents_codes _ _ _ _ _ Hrun) as Hcodes.
  fold offer_codes invoice_codes out_codes in Hcodes.
  set (extra := filter (fun c => negb (mem_string c offer_codes))
                  (distinct_codes invoice_codes)) in Hcodes.
  assert (Hextra : forall c, In c extra <-> In c invoice_codes /\ ~ In c offer_codes).
  { intros c. unfold extra. rewrite filter_In, distinct_codes_In, negb_true_iff.
    now rewrite mem_string_false. }
  assert (Hnd_extra : NoDup extra).
  { unfold extra. apply NoDup_filter, distinct_codes_NoDup. }
  rewrite Hcodes. split; [|split; [|split]].
  - intros c. rewrite in_app_iff, Hextra.
    destruct (in_dec string_dec c offer_codes); tauto.
  - intros c Hin. rewrite count_occ_app.
    assert (Hz : count_occ string_dec extra c = 0%nat).
    { apply count_occ_not_In. rewrite Hextra. tauto. }
    lia.
  - intros c Hnot Hin. rewrite count_occ_app.
    rewrite (proj1 (count_occ_not_In string_dec offer_codes c) Hnot).
    apply count_occ_NoDup_In; [assumption|]. now apply Hextra.
  - intros Hnd. apply NoDup_app; auto.
    intros c Hc Hc'. apply Hextra in Hc'. tauto.
Qed.

Lemma compare_documents_code_coverage_witness :
  exists rs,
    snd (compare_documents PDFProcessor_init OrderRuns.mixed_heap
           [0; 1]%nat [2; 3; 4; 5]%nat) = Ok rs /\
    NoDup (map res_item_code rs).
Proof.
  eexists. split; [reflexivity|].
  apply (compare_documents_code_coverage PDFProcessor_init OrderRuns.mixed_heap
           [0; 1]%nat [2; 3; 4; 5]%nat).
  - reflexivity.
  - repeat constructor; simpl; intuition discriminate.
Defined.

Lemma summary_step_counters s r :
  total_items (summary_step s r) = total_items s /\
  matches (summary_step s r)
    = (matches s + indicator (String.eqb (status r) "match"))%nat /\
  quantity_mismatches (summary_step s r)
    = (quantity_mismatches s + indicator (String.eqb (status r) "quantity_mismatch"))%nat /\
  price_mismatches (summary_step s r)
    = (price_mismatches s + indicator (String.eqb (status r) "price_mismatch"))%nat /\
  missing_items (summary_step s r)
    = (missing_items s + indicator (String.eqb (status r) "missing"))%nat /\
  extra_items (summary_step s r)
    = (extra_items s + indicator (String.eqb (status r) "extra_item"))%nat.
Proof.
  unfold summary_step.
  destruct (String.eqb_spec (status r) "match") as [E|_];
    [try rewrite E; cbn; repeat split; lia|].
  destruct (String.eqb_spec (status r) "quantity_mismatch") as [E|_];
    [try rewrite E; cbn; repeat split; lia|].
  destruct (String.eqb_spec (status r) "price_mismatch") as [E|_];
    [try rewrite E; cbn; repeat split; lia|].
  destruct (String.eqb_spec (status r) "missing") as [E|_];
    [try rewrite E; cbn; repeat split; lia|].
  destruct (String.eqb_spec (status r) "extra_item") as [E|_];
    [try rewrite E; cbn; repeat split; lia|].
  cbn. repeat split; lia.
Qed.

Lemma summary_step_totals s r :
  total_quantity_difference (summary_step s r)
    = total_quantity_difference s + Qabs (quantity_difference r) /\
  total_price_difference (summary_step s r)
    = total_price_difference s + Qabs (price_difference r).
Proof.
  unfold summary_step.
  destruct (String.eqb (status r) "match"); [split; reflexivity|].
  destruct (String.eqb (status r) "quantity_mismatch"); [split; reflexivity|].
  destruct (String.eqb (status r) "price_mismatch"); [split; reflexivity|].
  destruct (String.eqb (status r) "missing"); [split; reflexivity|].
  destruct (String.eqb (status r) "extra_item"); split; reflexivity.
Qed.

Lemma count_status_cons s r rs :
  count_status s (r :: rs)
  = (indicator (String.eqb (status r) s) + count_status s rs)%nat.
Proof.
  unfold count_status. simpl. now destruct (String.eqb (status r) s).
Qed.

Lemma summary_fold_counters rs : forall s,
  let s' := fold_left summary_step rs s in
  total_items s' = total_items s /\
  matches s' = (matches s + count_status "match" rs)%nat /\
  quantity_mismatches s'
    = (quantity_mismatches s + count_status "quantity_mismatch" rs)%nat /\
  price_mismatches s' = (price_mismatches s + count_status "price_mismatch" rs)%nat /\
  missing_items s' = (missing_items s + count_status "missing" rs)%nat /\
  extra_items s' = (extra_items s + count_status "extra_item" rs)%nat.
Proof.
  induction rs as [|r rs IH]; intros s; cbv zeta.
  - cbn. unfold count_status. cbn. repeat split; lia.
  - cbn [fold_left]. cbv zeta in IH.
    destruct (IH (summary_step s r)) as (H1 & H2 & H3 & H4 & H5 & H6).
    destruct (summary_step_counters s r) as (K1 & K2 & K3 & K4 & K5 & K6).
    rewrite !count_status_cons.
    rewrite H1, H2, H3, H4, H5, H6, K1, K2, K3, K4, K5, K6.
    repeat split; lia.
Qed.

Lemma summary_fold_totals rs : forall s,
  let s' := fold_left summary_step rs s in
  total_quantity_difference s'
    == total_quantity_difference s + sum_abs quantity_difference rs /\
  total_price_difference s'
    == total_price_difference s + sum_abs price_difference rs.
Proof.
  induction rs as [|r rs IH]; intros s; cbv zeta.
  - cbn [fold_left sum_abs]. split; now rewrite Qplus_0_r.
  - cbn [fold_left sum_abs]. cbv zeta in IH.
    destruct (IH (summary_step s r)) as (H1 & H2).
    destruct (summary_step_totals s r) as (K1 & K2).
    rewrite H1, H2, K1, K2. split; now rewrite Qplus_assoc.
Qed.


Example summary_of_test_run :
  let s := generate_summary
    [ mkComparisonResult "A123" "" 10 8 (155 # 10) (155 # 10) 2 0 "quantity_mismatch";
      mkComparisonResult "B456" "" 5 5 25 26 0 (- (1)) "price_mismatch";
      mkComparisonResult "C789" "" 2 0 50 0 2 0 "missing";
      mkComparisonResult "D012" "" 0 1 0 75 (- (1)) (- (75)) "extra_item" ] in
  (total_items s, matches s, quantity_mismatches s, price_mismatches s,
   missing_items s, extra_items s) = (4, 0, 1, 1, 1, 1)%nat /\
  total_quantity_difference s == 5 /\ total_price_difference s == 76.
Proof. cbv zeta. repeat split. Qed.

Lemma list_index_cell row cols role default :
  list_index row (dict_get_default cols role default)
  = match cell row cols role default with
    | Some c => Ok c
    | None => Raise IndexError
    end.
Proof. reflexivity. Qed.

Lemma dec_truthy_true q : dec_truthy q = true <-> ~ q == 0.
Proof. unfold dec_truthy. rewrite negb_true_iff. apply Qeq_bool_false. Qed.

Lemma dec_truthy_false q : dec_truthy q = false <-> q == 0.
Proof. unfold dec_truthy. rewrite negb_false_iff. apply Qeq_bool_iff. Qed.

Lemma str_truthy_false s : str_truthy s = false <-> s = "".
Proof. destruct s; simpl; split; congruence. Qed.

(** What [_parse_row] returns, by cases on the five cells. *)
Lemma parse_row_cases row cols :
  match cell row cols "item_code" 0%nat, cell row cols "description" 1%nat,
        cell row cols "quantity" 2%nat, cell row cols "unit_price" 3%nat,
        cell row cols "total_price" 4%nat with
  | Some c_code, Some c_desc, Some c_qty, Some c_unit, Some c_total =>
      _parse_row row cols
      = if str_truthy (strip c_code) && dec_truthy (_parse_decimal c_qty)
           && dec_truthy (_parse_decimal c_unit)
        then Some (mkItem (strip c_code) (strip c_desc)
                     (_parse_decimal c_qty) (_parse_decimal c_unit)
                     (if dec_truthy (_parse_decimal c_total)
                      then _parse_decimal c_total
                      else _parse_decimal c_qty * _parse_decimal c_unit))
        else None
  | _, _, _, _, _ => _parse_row row cols = None
  end.
Proof.
  unfold _parse_row, _parse_row_try. rewrite !list_index_cell.
  destruct (cell row cols "item_code" 0%nat); cbn [bind]; [|reflexivity].
  destruct (cell row cols "description" 1%nat); cbn [bind]; [|reflexivity].
  destruct (cell row cols "quantity" 2%nat); cbn [bind]; [|reflexivity].
  destruct (cell row cols "unit_price" 3%nat); cbn [bind]; [|reflexivity].
  destruct (cell row cols "total_price" 4%nat); cbn [bind]; [|reflexivity].
  now destruct (_ && _).
Qed.

Lemma process_table_loop cols rows : forall items,
  fold_left
    (fun items row =>
       match _parse_row row cols with
       | Some item => (items ++ [item])%list
       | None => items
       end) rows items
  = (items ++ parsed_rows cols rows)%list.
Proof.
  induction rows as [|row rows IH]; intros items; cbn [fold_left parsed_rows].
  - now rewrite app_nil_r.
  - rewrite IH. destruct (_parse_row row cols); [|reflexivity].
    now rewrite <- app_assoc.
Qed.

Lemma process_table_cons header_row rows :
  _process_table (header_row :: rows)
  = if dict_is_empty (_identify_columns header_row) then []
    else parsed_rows (_identify_columns header_row) rows.
Proof.
  unfold _process_table.
  destruct (dict_is_empty _); [reflexivity|].
  now rewrite process_table_loop.
Qed.

Lemma parsed_rows_In cols rows item :
  In item (parsed_rows cols rows) <->
  exists row, In row rows /\ _parse_row row cols = Some item.
Proof.
  induction rows as [|row rows IH]; cbn [parsed_rows].
  - split; [intros [] | intros (? & [] & _)].
  - destruct (_parse_row row cols) as [it|] eqn:Hrow.
    + cbn [In]. rewrite IH. split.
      * intros [<- | (row' & Hin & Hp)]; [exists row | exists row']; simpl; auto.
      * intros (row' & [<- | Hin] & Hp); [left; congruence | right; eauto].
    + rewrite IH. split.
      * intros (row' & Hin & Hp). exists row'. simpl. auto.
      * intros (row' & [<- | Hin] & Hp); [congruence | eauto].
Qed.

Lemma process_table_In table item :
  In item (_process_table table) ->
  exists header_row rows row,
    table = header_row :: rows /\ In row rows /\
    dict_is_empty (_identify_columns header_row) = false /\
    _parse_row row (_identify_columns header_row) = Some item.
Proof.
  destruct table as [|header_row rows]; [intros []|].
  rewrite process_table_cons.
  destruct (dict_is_empty _) eqn:He; [intros []|].
  rewrite parsed_rows_In. intros (row & Hin & Hp).
  exists header_row, rows, row. auto.
Qed.



(** C5 (counterexample).  A row with code ["A123"], quantity cell ["0"]
    and unit price cell ["15.50"], all present and parsable, is
    discarded. *)
Lemma zero_quantity_row_discarded :
  cell TableRuns.zero_quantity_row (_identify_columns TableRuns.header)
    "item_code" 0%nat = Some "A123" /\
  cell TableRuns.zero_quantity_row (_identify_columns TableRuns.header)
    "quantity" 2%nat = Some "0" /\
  cell TableRuns.zero_quantity_row (_identify_columns TableRuns.header)
    "unit_price" 3%nat = Some "15.50" /\
  Decimal "0" = Some (0 # 1) /\
  Decimal "15.50" = Some (1550 # 100) /\
  _parse_row TableRuns.zero_quantity_row (_identify_columns TableRuns.header) = None /\
  _process_table [TableRuns.header; TableRuns.zero_quantity_row] = [].
Proof. repeat split. Qed.

(** C5 (as the code has it).  [_parse_row] discards a row exactly when
    the row lacks one of the five cells it reads, or its code cell is
    empty once stripped, or its quantity cell or its unit-price cell
    normalises to zero. *)
Theorem parse_row_discarded_iff row cols :
  _parse_row row cols = None <->
  ( cell row cols "item_code" 0%nat = None \/
    cell row cols "description" 1%nat = None \/
    cell row cols "quantity" 2%nat = None \/
    cell row cols "unit_price" 3%nat = None \/
    cell row cols "total_price" 4%nat = None \/
    (exists c, cell row cols "item_code" 0%nat = Some c /\ strip c = "") \/
    (exists c, cell row cols "quantity" 2%nat = Some c /\ _parse_decimal c == 0) \/
    (exists c, cell row cols "unit_price" 3%nat = Some c /\ _parse_decimal c == 0) ).
Proof.
  pose proof (parse_row_cases row cols) as Hc.
  destruct (cell row cols "item_code" 0%nat) as [c_code|]; [|tauto].
  destruct (cell row cols "description" 1%nat) as [c_desc|]; [|tauto].
  destruct (cell row cols "quantity" 2%nat) as [c_qty|]; [|tauto].
  destruct (cell row cols "unit_price" 3%nat) as [c_unit|]; [|tauto].
  destruct (cell row cols "total_price" 4%nat) as [c_total|]; [|tauto].
  rewrite Hc. clear Hc.
  destruct (str_truthy (strip c_code)) eqn:Hs.
  - destruct (dec_truthy (_parse_decimal c_qty)) eqn:Hq.
    + destruct (dec_truthy (_parse_decimal c_unit)) eqn:Hu; cbn [andb].
      * split; [discriminate|].
        apply dec_truthy_true in Hq, Hu.
        intros [H|[H|[H|[H|[H|[(c & [= <-] & H)|[(c & [= <-] & H)|(c & [= <-] & H)]]]]]]];
          try discriminate; try contradiction.
        rewrite H in Hs. discriminate.
      * apply dec_truthy_false in Hu. split; [|reflexivity].
        intros _. do 7 right. eauto.
    + apply dec_truthy_false in Hq. cbn [andb]. split; [|reflexivity].
      intros _. do 6 right. left. eauto.
  - apply str_truthy_false in Hs. cbn [andb]. split; [|reflexivity].
    intros _. do 5 right. left. eauto.
Qed.

(** ** Extractor: header roles *)

Lemma dict_get_set_same {V} (d : dict V) k v : dict_get (dict_set d k v) k = Some v.
Proof.
  induction d as [|[k' v'] d IH]; simpl.
  - now rewrite String.eqb_refl.
  - destruct (String.eqb k' k) eqn:E; simpl; now rewrite E.
Qed.

Lemma dict_get_set_other {V} (d : dict V) k k' v :
  k <> k' -> dict_get (dict_set d k v) k' = dict_get d k'.
Proof.
  intros Hne. induction d as [|[k0 v0] d IH]; simpl.
  - destruct (String.eqb_spec k k'); [contradiction | reflexivity].
  - destruct (String.eqb_spec k0 k) as [->|Hk]; simpl.
    + destruct (String.eqb_spec k k'); [contradiction | reflexivity].
    + now rewrite IH.
Qed.

Lemma dict_set_not_empty {V} (d : dict V) k v : dict_is_empty (dict_set d k v) = false.
Proof.
  destruct d as [|[k' v'] d]; simpl; [reflexivity|].
  now destruct (String.eqb k' k).
Qed.

Lemma identify_step_role columns i header :
  identify_step columns (i, header)
  = match header_role header with
    | Some role => dict_set columns role i
    | None => columns
    end.
Proof.
  unfold identify_step, header_role, role_vocabulary.
  cbn [find snd fst option_map].
  destruct (any_in ["item"; "code"; "article"] (lower header)); [reflexivity|].
  destruct (any_in ["desc"; "description"; "product"] (lower header)); [reflexivity|].
  destruct (any_in ["qty"; "quantity"; "amount"] (lower header)); [reflexivity|].
  destruct (any_in ["price"; "unit"] (lower header)); [reflexivity|].
  destruct (any_in ["total"; "sum"] (lower header)); reflexivity.
Qed.

Lemma has_role_true role header : has_role role header = true <-> header_role header = Some role.
Proof.
  unfold has_role. destruct (header_role header) as [r|].
  - rewrite String.eqb_eq. split; congruence.
  - split; discriminate.
Qed.

Lemma identify_fold_get role headers : forall n columns,
  dict_get (fold_left identify_step (combine (seq n (List.length headers)) headers) columns) role
  = match last_index role headers n with
    | Some i => Some i
    | None => dict_get columns role
    end.
Proof.
  induction headers as [|header rest IH]; intros n columns; cbn [List.length seq combine fold_left last_index].
  - reflexivity.
  - rewrite IH. destruct (last_index role rest (S n)); [reflexivity|].
    rewrite identify_step_role. unfold has_role.
    destruct (header_role header) as [r|]; [|reflexivity].
    destruct (String.eqb_spec r role) as [->|Hne].
    + apply dict_get_set_same.
    + now apply dict_get_set_other.
Qed.

Lemma last_index_spec role headers : forall n i,
  last_index role headers n = Some i <->
  (n <= i)%nat /\
  (exists header, nth_error headers (i - n) = Some header /\
                  header_role header = Some role) /\
  (forall j header, (i < j)%nat -> nth_error headers (j - n) = Some header ->
                    header_role header <> Some role).
Proof.
  induction headers as [|header rest IH]; intros n i; cbn [last_index].
  - split; [discriminate|]. intros (_ & (hd & H & _) & _).
    now destruct (i - n)%nat.
  - destruct (last_index role rest (S n)) as [i'|] eqn:Hlast.
    + pose proof (proj1 (IH (S n) i') Hlast) as (Hle & (hd & Hnth & Hrole) & Hafter).
      split.
      * intros [= <-]. split; [lia|]. split.
        -- exists hd. split; [|exact Hrole].
           replace (i' - n)%nat with (S (i' - S n)) by lia. exact Hnth.
        -- intros j h' Hlt Hj.
           apply (Hafter j h' Hlt).
           replace (j - n)%nat with (S (j - S n)) in Hj by lia. exact Hj.
      * intros (Hni & (hd' & Hnth' & Hrole') & Hafter').
        f_equal.
        destruct (Nat.lt_trichotomy i i') as [Hlt | [Heq | Hgt]]; [|congruence|].
        -- exfalso. apply (Hafter' i' hd Hlt); [|exact Hrole].
           replace (i' - n)%nat with (S (i' - S n)) by lia. exact Hnth.
        -- exfalso. apply (Hafter i hd' Hgt); [|exact Hrole'].
           replace (i - n)%nat with (S (i - S n)) in Hnth' by lia. exact Hnth'.
    + assert (Hnone : forall j h', (n < j)%nat ->
                nth_error rest (j - S n) = Some h' -> header_role h' <> Some role).
      { intros j h' Hlt Hj Hrole.
        assert (Hex : exists k, last_index role rest (S n) = Some k).
        { clear IH Hlast. revert Hj. generalize (j - S n)%nat as m. generalize (S n) as p.
          induction rest as [|x rest IHr]; intros p m Hm; [now destruct m|].
          cbn [last_index]. destruct m as [|m]; simpl in Hm.
          - injection Hm as ->. destruct (last_index role rest (S p)); [eauto|].
            apply has_role_true in Hrole. rewrite Hrole. eauto.
          - destruct (IHr (S p) m Hm) as [k ->]. eauto. }
        destruct Hex as [k Hk]. congruence. }
      destruct (has_role role header) eqn:Hhas.
      * apply has_role_true in Hhas. split.
        -- intros [= <-]. split; [lia|]. split.
           ++ exists header. rewrite Nat.sub_diag. auto.
           ++ intros j h' Hlt Hj. apply (Hnone j h' Hlt).
              replace (j - n)%nat with (S (j - S n)) in Hj by lia. exact Hj.
        -- intros (Hni & (hd' & Hnth' & Hrole') & _). f_equal.
           destruct (Nat.eq_dec n i) as [|Hne]; [assumption|]. exfalso.
           apply (Hnone i hd'); [lia| |exact Hrole'].
           replace (i - n)%nat with (S (i - S n)) in Hnth' by lia. exact Hnth'.
      * split; [discriminate|].
        intros (Hni & (hd' & Hnth' & Hrole') & _). exfalso.
        destruct (Nat.eq_dec n i) as [<-|Hne].
        -- rewrite Nat.sub_diag in Hnth'. simpl in Hnth'. injection Hnth' as <-.
           apply has_role_true in Hrole'. congruence.
        -- apply (Hnone i hd'); [lia| |exact Hrole'].
           replace (i - n)%nat with (S (i - S n)) in Hnth' by lia. exact Hnth'.
Qed.

Lemma identify_fold_empty (ihs : list (nat * string)) : forall columns,
  dict_is_empty (fold_left identify_step ihs columns)
  = dict_is_empty columns && forallb (fun ih => no_role (snd ih)) ihs.
Proof.
  induction ihs as [|[i header] ihs IH]; intros columns; cbn [fold_left forallb snd].
  - now rewrite andb_true_r.
  - rewrite IH, identify_step_role. unfold no_role at 2.
    destruct (header_role header) as [role|].
    + rewrite dict_set_not_empty. cbn [andb]. now rewrite andb_false_r.
    + now rewrite andb_true_l.
Qed.

Lemma enumerate_snd {A} (l : list A) : map snd (enumerate l) = l.
Proof.
  unfold enumerate. generalize 0%nat.
  induction l as [|a l IH]; intros n; simpl; [reflexivity|]. now rewrite IH.
Qed.

Lemma forallb_snd {A B} (p : B -> bool) (l : list (A * B)) :
  forallb (fun x => p (snd x)) l = forallb p (map snd l).
Proof.
  induction l as [|x l IH]; simpl; [reflexivity|]. now rewrite IH.
Qed.

Lemma identify_columns_empty header_row :
  dict_is_empty (_identify_columns header_row) = forallb no_role header_row.
Proof.
  unfold _identify_columns. rewrite identify_fold_empty. cbn [dict_is_empty andb].
  now rewrite forallb_snd, enumerate_snd.
Qed.

(** C8 (counterexample).  A table whose header holds no keyword gives no
    Item, although its data row read through columns 0..4 is a valid
    line. *)
Lemma plain_header_table_yields_nothing :
  _identify_columns ["No."; "Name"; "Pieces"; "Each"; "Net"] = [] /\
  _parse_row ["A123"; "Test Item 1"; "10"; "15.50"; "155.00"] []
    = Some (mkItem "A123" "Test Item 1" (10 # 1) (1550 # 100) (15500 # 100)) /\
  _process_table TableRuns.plain_table = [].
Proof. repeat split. Qed.

(** C8 (as the code has it).  A role is recorded for the last header
    cell whose first matching vocabulary, tried in the order item_code,
    description, quantity, unit_price, total_price on the lower-cased
    cell, is that role's.  [_parse_row] reads each field from the column
    recorded for its role, or from its positional default (0..4) when
    none is recorded.  The data rows are parsed this way when at least
    one role is recorded; a header without any keyword gives no Item. *)
Theorem column_roles_and_defaults (header_row : list string) :
  (forall role i,
     dict_get (_identify_columns header_row) role = Some i <->
     (exists header, nth_error header_row i = Some header /\
                     header_role header = Some role) /\
     (forall j header, (i < j)%nat -> nth_error header_row j = Some header ->
                       header_role header <> Some role)) /\
  (forall row role default,
     cell row (_identify_columns header_row) role default
     = match dict_get (_identify_columns header_row) role with
       | Some i => nth_error row i
       | None => nth_error row default
       end) /\
  (forall row item,
     _parse_row row (_identify_columns header_row) = Some item ->
     exists c_code c_desc c_qty c_unit,
       cell row (_identify_columns header_row) "item_code" 0%nat = Some c_code /\
       cell row (_identify_columns header_row) "description" 1%nat = Some c_desc /\
       cell row (_identify_columns header_row) "quantity" 2%nat = Some c_qty /\
       cell row (_identify_columns header_row) "unit_price" 3%nat = Some c_unit /\
       item_code item = strip c_code /\
       description item = strip c_desc /\
       quantity item = _parse_decimal c_qty /\
       unit_price item = _parse_decimal c_unit) /\
  (forall rows,
     (exists header, In header header_row /\ header_role header <> None) ->
     _process_table (header_row :: rows)
     = parsed_rows (_identify_columns header_row) rows) /\
  (forall rows,
     (forall header, In header header_row -> header_role header = None) ->
     _process_table (header_row :: rows) = []).
Proof.
  split; [|split; [|split; [|split]]].
  - intros role i. unfold _identify_columns, enumerate.
    rewrite identify_fold_get.
    destruct (last_index role header_row 0) as [k|] eqn:Hlast.
    + split.
      * intros [= <-]. apply last_index_spec in Hlast.
        destruct Hlast as (_ & Hex & Hafter).
        rewrite Nat.sub_0_r in Hex. split; [exact Hex|].
        intros j header Hlt Hj. apply (Hafter j header Hlt).
        now rewrite Nat.sub_0_r.
      * intros (Hex & Hafter). f_equal.
        assert (Hi : last_index role header_row 0 = Some i).
        { apply last_index_spec. split; [lia|]. rewrite Nat.sub_0_r.
          split; [exact Hex|]. intros j header Hlt Hj.
          rewrite Nat.sub_0_r in Hj. now apply (Hafter j header). }
        congruence.
    + cbn [dict_get]. split; [discriminate|].
      intros (Hex & Hafter). exfalso.
      assert (Hi : last_index role header_row 0 = Some i).
      { apply last_index_spec. split; [lia|]. rewrite Nat.sub_0_r.
        split; [exact Hex|]. intros j header Hlt Hj.
        rewrite Nat.sub_0_r in Hj. now apply (Hafter j header). }
      congruence.
  - intros row role default. unfold cell, dict_get_default.
    now destruct (dict_get _ role).
  - intros row item Hp.
    pose proof (parse_row_cases row (_identify_columns header_row)) as Hc.
    destruct (cell row _ "item_code" 0%nat) as [c_code|]; [|congruence].
    destruct (cell row _ "description" 1%nat) as [c_desc|]; [|congruence].
    destruct (cell row _ "quantity" 2%nat) as [c_qty|]; [|congruence].
    destruct (cell row _ "unit_price" 3%nat) as [c_unit|]; [|congruence].
    destruct (cell row _ "total_price" 4%nat) as [c_total|]; [|congruence].
    rewrite Hp in Hc. destruct (_ && _); [|discriminate].
    injection Hc as ->. exists c_code, c_desc, c_qty, c_unit.
    repeat split; reflexivity.
  - intros rows (header & Hin & Hrole). rewrite process_table_cons.
    rewrite identify_columns_empty.
    destruct (forallb no_role header_row) eqn:Hall; [|reflexivity].
    exfalso. rewrite forallb_forall in Hall. specialize (Hall header Hin).
    unfold no_role in Hall. destruct (header_role header); [discriminate | now apply Hrole].
  - intros rows Hnone. rewrite process_table_cons, identify_columns_empty.
    assert (Hall : forallb no_role header_row = true).
    { apply forallb_forall. intros header Hin. unfold no_role.
      now rewrite (Hnone header Hin). }
    now rewrite Hall.
Qed.

(** ** Aggregation of two Items *)

(** Two distinct invoice Items with one code: the first is updated in
    place to the merged quantity and total and is the aggregate, the
    second is left as it was. *)
Lemma aggregate_two_items (h : heap) (r1 r2 : ref) :
  r1 <> r2 ->
  item_code (h r1) = item_code (h r2) ->
  let h' := fst (aggregate h [r1; r2]) in
  snd (aggregate h [r1; r2]) = [(item_code (h r1), r1)] /\
  quantity (h' r1) = quantity (h r1) + quantity (h r2) /\
  total_price (h' r1) = total_price (h r1) + total_price (h r2) /\
  unit_price (h' r1) = unit_price (h r1) /\
  description (h' r1) = description (h r1) /\
  h' r2 = h r2.
Proof.
  intros Hne Hcode. unfold aggregate. cbn [fold_left].
  rewrite aggregate_step_none by reflexivity. cbn [dict_set].
  unfold aggregate_step. cbn [dict_get]. rewrite <- Hcode, String.eqb_refl.
  cbn [fst snd]. unfold heap_set, set_total_price, set_quantity.
  rewrite Nat.eqb_refl. cbn [quantity total_price unit_price description item_code].
  destruct (Nat.eqb_spec r2 r1) as [E|_]; [congruence|].
  repeat split; reflexivity.
Qed.

(** ** The aggregate of distinct invoice Items *)

Lemma sum_for_code_ext f (h h' : heap) c l :
  (forall r, In r l -> h' r = h r) ->
  sum_for_code f h' c l = sum_for_code f h c l.
Proof.
  induction l as [|r l IH]; intros Hext; cbn [sum_for_code]; [reflexivity|].
  rewrite (Hext r (or_introl eq_refl)), IH; [reflexivity|].
  intros r' Hr'. apply Hext. now right.
Qed.

Lemma dict_get_value_in (d : dict ref) c r :
  dict_get d c = Some r -> In r (dict_values d).
Proof.
  intros H. apply dict_get_some_in in H. unfold dict_values.
  change r with (snd (c, r)). now apply in_map.
Qed.

Lemma dict_get_keyed (h : heap) (d : dict ref) c r :
  keyed h d -> dict_get d c = Some r -> item_code (h r) = c.
Proof.
  intros Hk H. apply dict_get_some_in in H.
  unfold keyed in Hk. rewrite Forall_forall in Hk. exact (Hk _ H).
Qed.

Lemma dict_get_app_fresh {V} (d : dict V) k v k' :
  dict_get d k = None ->
  dict_get (d ++ [(k, v)])%list k'
  = if String.eqb k k' then Some v else dict_get d k'.
Proof.
  induction d as [|[k0 v0] d IH]; cbn [dict_get app]; [reflexivity|].
  destruct (String.eqb_spec k0 k) as [->|Hne]; [discriminate|].
  intros Hnone. rewrite (IH Hnone).
  destruct (String.eqb_spec k0 k') as [->|Hne'].
  - destruct (String.eqb_spec k k'); [congruence | reflexivity].
  - reflexivity.
Qed.

Lemma aggregate_fold_sums inv : forall (h : heap) (d : dict ref),
  keyed h d ->
  NoDup inv ->
  (forall r, In r inv -> ~ In r (dict_values d)) ->
  let st := fold_left aggregate_step inv (h, d) in
  forall c r, dict_get (snd st) c = Some r ->
    quantity (fst st r) == stored quantity h d c + sum_for_code quantity h c inv /\
    total_price (fst st r)
      == stored total_price h d c + sum_for_code total_price h c inv.
Proof.
  induction inv as [|x inv IH]; intros h d Hk Hnd Hdisj; cbv zeta;
    cbn [fold_left sum_for_code].
  - cbn [fst snd]. intros c r Hget. unfold stored. rewrite Hget.
    split; now rewrite Qplus_0_r.
  - inversion Hnd as [|? ? Hx Hnd']; subst.
    destruct (dict_get d (item_code (h x))) as [e|] eqn:Hget.
    + (* the code of [x] is already filed under [e] *)
      assert (Hxe : x <> e).
      { intros ->. apply (Hdisj e (or_introl eq_refl)).
        now apply dict_get_value_in in Hget. }
      assert (He_inv : ~ In e inv).
      { intros He. apply (Hdisj e (or_intror He)).
        now apply dict_get_value_in in Hget. }
      destruct (aggregate_step_some h d x e Hget) as (h2 & Hstep & Hs).
      pose proof Hstep as Hh2. unfold aggregate_step in Hh2. rewrite Hget in Hh2.
      injection Hh2 as Hh2. rewrite Hstep.
      assert (Hother : forall r, r <> e -> h2 r = h r).
      { intros r Hr. rewrite <- Hh2. unfold heap_set.
        destruct (Nat.eqb_spec r e); [contradiction | reflexivity]. }
      assert (Hq : quantity (h2 e) = quantity (h e) + quantity (h x)).
      { rewrite <- Hh2. unfold heap_set. now rewrite Nat.eqb_refl. }
      assert (Ht : total_price (h2 e) = total_price (h e) + total_price (h x)).
      { rewrite <- Hh2. unfold heap_set. rewrite !Nat.eqb_refl.
        cbn [total_price set_total_price set_quantity].
        destruct (Nat.eqb_spec x e); [contradiction | reflexivity]. }
      intros c r Hfinal.
      destruct (IH h2 d (keyed_static _ _ _ Hs Hk) Hnd'
                  (fun r Hr => Hdisj r (or_intror Hr)) c r Hfinal) as [IHq IHt].
      rewrite IHq, IHt.
      rewrite !(sum_for_code_ext _ h h2 c inv)
        by (intros r' Hr'; apply Hother; intros ->; contradiction).
      pose proof (dict_get_keyed h d _ e Hk Hget) as Hcode_e.
      destruct (String.eqb_spec (item_code (h x)) c) as [Hc|Hc].
      * subst c. unfold stored. rewrite Hget, Hq, Ht.
        split; now rewrite <- !Qplus_assoc.
      * unfold stored. destruct (dict_get d c) as [r0|] eqn:Hget0; [|split; reflexivity].
        assert (Hr0 : r0 <> e).
        { intros ->. apply Hc. rewrite <- Hcode_e.
          now apply (dict_get_keyed h d c e Hk). }
        rewrite (Hother r0 Hr0). split; reflexivity.
    + (* first Item with this code *)
      rewrite (aggregate_step_none _ _ _ Hget), (dict_set_fresh _ _ _ Hget).
      assert (Hk' : keyed h (d ++ [(item_code (h x), x)])%list).
      { unfold keyed. apply Forall_app. split; [exact Hk|]. now constructor. }
      assert (Hdisj' : forall r, In r inv ->
                ~ In r (dict_values (d ++ [(item_code (h x), x)])%list)).
      { intros r Hr. unfold dict_values. rewrite map_app, in_app_iff.
        intros [Hin | [<- | []]].
        - exact (Hdisj r (or_intror Hr) Hin).
        - contradiction. }
      intros c r Hfinal.
      destruct (IH h _ Hk' Hnd' Hdisj' c r Hfinal) as [IHq IHt].
      rewrite IHq, IHt. unfold stored.
      rewrite (dict_get_app_fresh d _ x c Hget).
      destruct (String.eqb_spec (item_code (h x)) c) as [Hc|Hc].
      * subst c. rewrite Hget. split; now rewrite Qplus_0_l.
      * split; reflexivity.
Qed.

(** For pairwise distinct invoice Items, the aggregate of a code holds
    the sums of the quantities and of the totals of the Items with that
    code, and the unit price and description of the first of them. *)
Lemma aggregate_sums (h : heap) inv c r :
  NoDup inv ->
  dict_get (snd (aggregate h inv)) c = Some r ->
  quantity (fst (aggregate h inv) r) == sum_for_code quantity h c inv /\
  total_price (fst (aggregate h inv) r) == sum_for_code total_price h c inv /\
  unit_price (fst (aggregate h inv) r) = unit_price (h r) /\
  description (fst (aggregate h inv) r) = description (h r) /\
  item_code (h r) = c.
Proof.
  intros Hnd Hget.
  destruct (aggregate_fold_sums inv h [] (Forall_nil _) Hnd (fun _ _ H => H) c r Hget)
    as [Hq Ht].
  destruct (aggregate_static h inv r) as (Hcode & Hdesc & Hup).
  destruct (aggregate_keys h inv) as [Hk _].
  split; [|split; [|split; [|split]]].
  - etransitivity; [exact Hq|]. unfold stored. cbn [dict_get]. apply Qplus_0_l.
  - etransitivity; [exact Ht|]. unfold stored. cbn [dict_get]. apply Qplus_0_l.
  - exact Hup.
  - exact Hdesc.
  - rewrite <- Hcode. exact (dict_get_keyed _ _ c r Hk Hget).
Qed.

(** * Further properties of the reconciler *)

(** ** No invoices, no offer *)

(** X1.  Without invoice Items, [compare_documents] returns one
    ['missing'] row per offer Item, in offer order, with delivered
    quantity, invoiced price and price difference 0 and the offer
    quantity as quantity difference; it does not raise and leaves every
    Item as it was. *)
Theorem compare_documents_no_invoices self (h : heap) offer :
  compare_documents self h offer []
  = (h, Ok (map (fun o => missing_result (h o)) offer)).
Proof.
  unfold compare_documents, aggregate. cbn [fold_left]. f_equal.
  assert (Hloop : compare_offer_items self h [] offer
                  = Ok (map (fun o => missing_result (h o)) offer)).
  { induction offer as [|o offer IH]; cbn [compare_offer_items map]; [reflexivity|].
    rewrite IH. reflexivity. }
  rewrite Hloop. cbn [bind]. unfold extra_item_results. cbn.
  now rewrite app_nil_r.
Qed.

(** X2.  Without offer Items, [compare_documents] does not raise and
    returns one ['extra_item'] row per invoice code, in order of first
    appearance, each with offer quantity and offer price 0. *)
Theorem compare_documents_no_offer self (h : heap) inv :
  exists rs,
    snd (compare_documents self h [] inv) = Ok rs /\
    map res_item_code rs = distinct_codes (map (code_of h) inv) /\
    Forall (fun e => status e = "extra_item" /\
                     offer_quantity e = 0 /\ offer_price e = 0) rs.
Proof.
  rewrite compare_documents_unfold. cbn [snd compare_offer_items bind app].
  eexists. split; [reflexivity|]. split.
  - destruct (aggregate_keys h inv) as [Hk Hkeys].
    rewrite (extra_item_results_codes _ _ _ Hk), Hkeys. cbn [map].
    now apply filter_all.
  - unfold extra_item_results. apply Forall_forall. intros e He.
    apply in_map_iff in He. destruct He as (r & <- & _). now cbn.
Qed.

(** ** What aggregation changes *)

Lemma aggregate_fold_distinct inv : forall (h : heap) (d : dict ref),
  NoDup (dict_keys d ++ map (code_of h) inv) ->
  fold_left aggregate_step inv (h, d) = (h, (d ++ map (entry_of h) inv)%list).
Proof.
  induction inv as [|r inv IH]; intros h d Hnd; cbn [fold_left map].
  - now rewrite app_nil_r.
  - assert (Hget : dict_get d (item_code (h r)) = None).
    { apply dict_get_none. intros Hin.
      apply NoDup_remove_2 in Hnd. apply Hnd. apply in_or_app. now left. }
    rewrite (aggregate_step_none _ _ _ Hget), (dict_set_fresh _ _ _ Hget).
    rewrite IH.
    + now rewrite <- app_assoc.
    + unfold dict_keys. rewrite map_app. cbn [map fst]. rewrite <- app_assoc.
      exact Hnd.
Qed.

Lemma aggregate_distinct (h : heap) inv :
  NoDup (map (code_of h) inv) ->
  aggregate h inv = (h, map (entry_of h) inv).
Proof. intros Hnd. exact (aggregate_fold_distinct inv h [] Hnd). Qed.

(** X3.  When the invoice Items carry pairwise distinct codes, the
    grouping loop changes no Item: the heap after [compare_documents] is
    the heap before it. *)
Theorem compare_documents_distinct_codes_pure self (h : heap) offer inv :
  NoDup (map (code_of h) inv) ->
  fst (compare_documents self h offer inv) = h.
Proof.
  intros Hnd. rewrite compare_documents_unfold. cbn [fst].
  now rewrite (aggregate_distinct h inv Hnd).
Qed.

Lemma compare_documents_distinct_codes_pure_witness :
  fst (compare_documents PDFProcessor_init OrderRuns.mixed_heap
         [0; 1]%nat [2; 3; 5]%nat) = OrderRuns.mixed_heap.
Proof.
  apply compare_documents_distinct_codes_pure.
  repeat constructor; simpl; intuition discriminate.
Defined.

Lemma aggregate_fold_frame inv : forall (h : heap) (d : dict ref) r,
  ~ In r (dict_values d) -> ~ In r inv ->
  fst (fold_left aggregate_step inv (h, d)) r = h r.
Proof.
  induction inv as [|x inv IH]; intros h d r Hd Hinv; cbn [fold_left]; [reflexivity|].
  destruct (dict_get d (item_code (h x))) as [e|] eqn:Hget.
  - destruct (aggregate_step_some h d x e Hget) as (h2 & Hstep & _).
    pose proof Hstep as Hh2. unfold aggregate_step in Hh2. rewrite Hget in Hh2.
    injection Hh2 as Hh2. rewrite Hstep.
    rewrite IH; [|assumption|intros H; apply Hinv; now right].
    rewrite <- Hh2. unfold heap_set.
    destruct (Nat.eqb_spec r e) as [->|Hne]; [|reflexivity].
    exfalso. apply Hd. unfold dict_values.
    apply dict_get_some_in in Hget. change e with (snd (item_code (h x), e)).
    now apply in_map.
  - rewrite (aggregate_step_none _ _ _ Hget), (dict_set_fresh _ _ _ Hget).
    apply IH.
    + unfold dict_values. rewrite map_app, in_app_iff. cbn.
      intros [H | [H | []]]; [now apply Hd | apply Hinv; now left].
    + intros H. apply Hinv. now right.
Qed.

(** X4.  [compare_documents] changes no Item outside the invoice list:
    an offer Item that is not also an invoice Item is as it was. *)
Theorem compare_documents_frame self (h : heap) offer inv r :
  ~ In r inv ->
  fst (compare_documents self h offer inv) r = h r.
Proof.
  intros Hr. rewrite compare_documents_unfold. cbn [fst].
  exact (aggregate_fold_frame inv h [] r (fun H => H) Hr).
Qed.

Lemma compare_documents_frame_witness :
  fst (compare_documents PDFProcessor_init OrderRuns.mixed_heap
         [0; 1]%nat [2; 3; 4; 5]%nat) 1%nat = OrderRuns.mixed_heap 1%nat.
Proof.
  apply compare_documents_frame. simpl. intuition discriminate.
Defined.

(** X5.  [compare_documents] never changes the code, the description or
    the unit price of an Item. *)
Theorem compare_documents_keeps_identity self (h : heap) offer inv r :
  item_code (fst (compare_documents self h offer inv) r) = item_code (h r) /\
  description (fst (compare_documents self h offer inv) r) = description (h r) /\
  unit_price (fst (compare_documents self h offer inv) r) = unit_price (h r).
Proof.
  rewrite compare_documents_unfold. cbn [fst]. apply aggregate_static.
Qed.



(** ** When [compare_documents] raises *)




(** ** A document compared with itself *)

Lemma dict_get_entries (h : heap) l r :
  NoDup (map (code_of h) l) -> In r l ->
  dict_get (map (entry_of h) l) (item_code (h r)) = Some r.
Proof.
  intros Hnd Hin. apply dict_get_in_nodup.
  - unfold dict_keys. rewrite map_map. exact Hnd.
  - change (item_code (h r), r) with (entry_of h r). now apply in_map.
Qed.

Lemma compare_offer_item_self self (h : heap) (d : dict ref) r :
  dict_get d (item_code (h r)) = Some r ->
  ~ unit_price (h r) == 0 ->
  0 <= price_tolerance self ->
  compare_offer_item self h d r = Ok (self_result (h r)).
Proof.
  intros Hget Hup Htol. unfold compare_offer_item. rewrite Hget.
  unfold determine_status, dec_div.
  assert (Hq : Qeq_bool (quantity (h r) - quantity (h r)) 0 = true).
  { apply Qeq_bool_iff. apply Qplus_opp_r. }
  rewrite Hq. cbn [negb]. apply Qeq_bool_false in Hup. rewrite Hup. cbn [bind].
  assert (Hgt : dec_gt (Qabs ((unit_price (h r) - unit_price (h r)) / unit_price (h r)))
                  (price_tolerance self) = false).
  { apply dec_gt_false.
    assert (Hz : (unit_price (h r) - unit_price (h r)) / unit_price (h r) == 0).
    { unfold Qdiv, Qminus. rewrite Qplus_opp_r. apply Qmult_0_l. }
    rewrite Hz. exact Htol. }
  rewrite Hgt. reflexivity.
Qed.

(** X8.  Comparing a list of Items with itself, when the codes are
    pairwise distinct, no unit price is 0 and the tolerance is not
    negative, returns one ['match'] row per Item, in order, and changes
    no Item. *)
Theorem compare_documents_same_list self (h : heap) l :
  NoDup (map (code_of h) l) ->
  Forall (fun r => ~ unit_price (h r) == 0) l ->
  0 <= price_tolerance self ->
  compare_documents self h l l = (h, Ok (map (fun r => self_result (h r)) l)).
Proof.
  intros Hnd Hup Htol. unfold compare_documents.
  rewrite (aggregate_distinct h l Hnd). f_equal.
  assert (Hloop : forall l', incl l' l ->
            compare_offer_items self h (map (entry_of h) l) l'
            = Ok (map (fun r => self_result (h r)) l')).
  { induction l' as [|r l' IH]; intros Hincl; cbn [compare_offer_items map];
      [reflexivity|].
    assert (Hr : In r l) by (apply Hincl; now left).
    rewrite (compare_offer_item_self self h _ r (dict_get_entries h l r Hnd Hr));
      [|exact (proj1 (Forall_forall _ _) Hup r Hr)|exact Htol].
    cbn [bind]. rewrite IH; [reflexivity|].
    intros x Hx. apply Hincl. now right. }
  rewrite (Hloop l (incl_refl l)). cbn [bind]. f_equal.
  assert (Hextra : extra_item_results h (map (entry_of h) l) l = []).
  { unfold extra_item_results, dict_values. rewrite map_map. cbn [entry_of snd].
    rewrite map_id.
    assert (Hf : forall l', incl l' l ->
              filter (fun r => negb (mem_string (item_code (h r))
                                       (map (fun r0 => item_code (h r0)) l))) l' = []).
    { induction l' as [|r l' IH]; intros Hincl; cbn [filter]; [reflexivity|].
      assert (Hm : mem_string (item_code (h r)) (map (fun r0 => item_code (h r0)) l) = true).
      { apply mem_string_In. apply in_map_iff. exists r. split; [reflexivity|].
        apply Hincl. now left. }
      rewrite Hm. cbn [negb]. apply IH. intros x Hx. apply Hincl. now right. }
    now rewrite (Hf l (incl_refl l)). }
  rewrite Hextra. apply app_nil_r.
Qed.

Lemma compare_documents_same_list_witness :
  compare_documents PDFProcessor_init OrderRuns.mixed_heap [0; 1; 3]%nat [0; 1; 3]%nat
  = (OrderRuns.mixed_heap,
     Ok (map (fun r => self_result (OrderRuns.mixed_heap r)) [0; 1; 3]%nat)).
Proof.
  apply compare_documents_same_list.
  - repeat constructor; simpl; intuition discriminate.
  - repeat constructor; vm_compute; discriminate.
  - vm_compute. discriminate.
Defined.

(** * Further properties of the summary and of its consumers *)

Lemma generate_summary_counters results :
  total_items (generate_summary results) = List.length results /\
  matches (generate_summary results) = count_status "match" results /\
  quantity_mismatches (generate_summary results)
    = count_status "quantity_mismatch" results /\
  price_mismatches (generate_summary results) = count_status "price_mismatch" results /\
  missing_items (generate_summary results) = count_status "missing" results /\
  extra_items (generate_summary results) = count_status "extra_item" results.
Proof.
  unfold generate_summary.
  exact (summary_fold_counters results (mkSummary (List.length results) 0 0 0 0 0 0 0)).
Qed.

Lemma generate_summary_totals results :
  total_quantity_difference (generate_summary results)
    == sum_abs quantity_difference results /\
  total_price_difference (generate_summary results)
    == sum_abs price_difference results.
Proof.
  unfold generate_summary.
  destruct (summary_fold_totals results (mkSummary (List.length results) 0 0 0 0 0 0 0))
    as [H1 H2].
  cbn [total_quantity_difference total_price_difference] in H1, H2.
  split; [rewrite H1 | rewrite H2]; apply Qplus_0_l.
Qed.

Lemma sum_abs_nonneg f results : 0 <= sum_abs f results.
Proof.
  induction results as [|r rs IH]; cbn [sum_abs]; [apply Qle_refl|].
  rewrite <- (Qplus_0_l 0). apply Qplus_le_compat; [apply Qabs_nonneg | exact IH].
Qed.

Lemma Qabs_zero_iff q : Qabs q == 0 <-> q == 0.
Proof.
  split.
  - intros H.
    assert (Hle : Qabs q <= 0) by (rewrite H; apply Qle_refl).
    apply Qabs_Qle_condition in Hle. destruct Hle as [Hlo Hhi].
    apply Qle_antisym; assumption.
  - intros H. rewrite H. reflexivity.
Qed.

Lemma sum_abs_zero_iff f results :
  sum_abs f results == 0 <-> Forall (fun r => f r == 0) results.
Proof.
  induction results as [|r rs IH]; cbn [sum_abs].
  - split; [constructor | reflexivity].
  - split.
    + intros H.
      pose proof (Qabs_nonneg (f r)) as Ha.
      pose proof (sum_abs_nonneg f rs) as Hs.
      assert (Ha0 : Qabs (f r) == 0).
      { apply Qle_antisym; [|exact Ha].
        rewrite <- H. rewrite <- (Qplus_0_r (Qabs (f r))) at 1.
        apply Qplus_le_compat; [apply Qle_refl | exact Hs]. }
      constructor.
      * now apply Qabs_zero_iff.
      * apply IH. rewrite Ha0, Qplus_0_l in H. exact H.
    + intros H. inversion H as [|? ? Hr Hrs]; subst.
      rewrite (proj2 (Qabs_zero_iff _) Hr), (proj2 IH Hrs). reflexivity.
Qed.

(** X9.  The two totals of a summary are never negative, and a total is
    0 exactly when every result has a zero difference of that kind. *)
Theorem summary_totals_nonneg results :
  0 <= total_quantity_difference (generate_summary results) /\
  0 <= total_price_difference (generate_summary results) /\
  (total_quantity_difference (generate_summary results) == 0 <->
   Forall (fun r => quantity_difference r == 0) results) /\
  (total_price_difference (generate_summary results) == 0 <->
   Forall (fun r => price_difference r == 0) results).
Proof.
  destruct (generate_summary_totals results) as [Hq Hp].
  rewrite Hq, Hp. repeat split; try apply sum_abs_nonneg; apply sum_abs_zero_iff.
Qed.

Lemma count_status_le s results : (count_status s results <= List.length results)%nat.
Proof. unfold count_status. apply filter_length_le. Qed.

Lemma counters_cons r :
  (indicator (String.eqb (status r) "match")
   + indicator (String.eqb (status r) "quantity_mismatch")
   + indicator (String.eqb (status r) "price_mismatch")
   + indicator (String.eqb (status r) "missing")
   + indicator (String.eqb (status r) "extra_item")
   = indicator (known_status (status r)))%nat.
Proof.
  unfold known_status.
  destruct (String.eqb_spec (status r) "match") as [E|_]; [rewrite E; reflexivity|].
  destruct (String.eqb_spec (status r) "quantity_mismatch") as [E|_];
    [rewrite E; reflexivity|].
  destruct (String.eqb_spec (status r) "price_mismatch") as [E|_];
    [rewrite E; reflexivity|].
  destruct (String.eqb_spec (status r) "missing") as [E|_]; [rewrite E; reflexivity|].
  destruct (String.eqb (status r) "extra_item"); reflexivity.
Qed.

Lemma counters_sum results :
  (count_status "match" results + count_status "quantity_mismatch" results
   + count_status "price_mismatch" results + count_status "missing" results
   + count_status "extra_item" results
   = List.length (filter (fun r => known_status (status r)) results))%nat.
Proof.
  induction results as [|r rs IH]; [reflexivity|].
  rewrite !count_status_cons. cbn [filter].
  pose proof (counters_cons r) as Hr.
  destruct (known_status (status r)); cbn [List.length indicator] in *; lia.
Qed.

Lemma filter_length_all {A} (p : A -> bool) (l : list A) :
  List.length (filter p l) = List.length l <-> forallb p l = true.
Proof.
  induction l as [|a l IH]; cbn [filter forallb List.length]; [tauto|].
  pose proof (filter_length_le p l) as Hle.
  destruct (p a); cbn [List.length andb].
  - rewrite <- IH. lia.
  - split; [lia | discriminate].
Qed.

(** X10.  The five status counters of a summary add up to at most
    [total_items], and to exactly [total_items] when every result
    carries one of the five statuses and only then. *)
Theorem summary_counters_partition results :
  let s := generate_summary results in
  let counted := (matches s + quantity_mismatches s + price_mismatches s
                  + missing_items s + extra_items s)%nat in
  (counted <= total_items s)%nat /\
  (counted = total_items s <->
   forallb (fun r => known_status (status r)) results = true).
Proof.
  cbv zeta.
  destruct (generate_summary_counters results) as (-> & -> & -> & -> & -> & ->).
  rewrite counters_sum. split.
  - apply filter_length_le.
  - apply filter_length_all.
Qed.

Lemma compare_offer_item_known self (h : heap) (d : dict ref) o e :
  compare_offer_item self h d o = Ok e -> known_status (status e) = true.
Proof.
  unfold compare_offer_item.
  destruct (dict_get d (item_code (h o))) as [i|]; [|intros [= <-]; reflexivity].
  unfold determine_status, dec_div.
  destruct (negb _); cbn [bind]; [intros [= <-]; reflexivity|].
  destruct (Qeq_bool (unit_price (h o)) 0).
  - destruct (Qeq_bool _ 0); cbn [bind]; discriminate.
  - cbn [bind]. destruct (dec_gt _ _); cbn [bind]; intros [= <-]; reflexivity.
Qed.

(** X11.  Every row [compare_documents] returns carries one of the five
    statuses, so the five counters of its summary add up to the number
    of rows. *)
Theorem compare_documents_summary_partition self (h : heap) offer inv rs :
  snd (compare_documents self h offer inv) = Ok rs ->
  forallb (fun r => known_status (status r)) rs = true /\
  (matches (generate_summary rs) + quantity_mismatches (generate_summary rs)
   + price_mismatches (generate_summary rs) + missing_items (generate_summary rs)
   + extra_items (generate_summary rs) = List.length rs)%nat.
Proof.
  intros Hrun.
  assert (Hknown : forallb (fun r => known_status (status r)) rs = true).
  { destruct (compare_documents_split _ _ _ _ _ Hrun) as (ors & Hors & ->).
    rewrite forallb_app. apply andb_true_intro. split.
    - apply compare_offer_items_Forall2 in Hors. clear Hrun.
      induction Hors as [|o e offer' ors' Hoe _ IH]; [reflexivity|].
      cbn [forallb]. rewrite (compare_offer_item_known _ _ _ _ _ Hoe). exact IH.
    - unfold extra_item_results. apply forallb_forall. intros e He.
      apply in_map_iff in He. destruct He as (r & <- & _). reflexivity. }
  split; [exact Hknown|].
  destruct (generate_summary_counters rs) as (_ & -> & -> & -> & -> & ->).
  rewrite counters_sum. now apply filter_length_all.
Qed.

Lemma compare_documents_summary_partition_witness :
  exists rs,
    snd (compare_documents PDFProcessor_init OrderRuns.mixed_heap
           [0; 1]%nat [2; 3; 4; 5]%nat) = Ok rs /\
    (matches (generate_summary rs) + quantity_mismatches (generate_summary rs)
     + price_mismatches (generate_summary rs) + missing_items (generate_summary rs)
     + extra_items (generate_summary rs) = List.length rs)%nat.
Proof.
  eexists. split; [reflexivity|].
  apply (compare_documents_summary_partition PDFProcessor_init OrderRuns.mixed_heap
           [0; 1]%nat [2; 3; 4; 5]%nat).
  reflexivity.
Defined.

Lemma py_sum_fold xs : forall acc, fold_left Qplus xs acc == acc + fold_right Qplus 0 xs.
Proof.
  induction xs as [|x xs IH]; intros acc; cbn [fold_left fold_right].
  - now rewrite Qplus_0_r.
  - rewrite IH. now rewrite Qplus_assoc.
Qed.

Lemma py_sum_abs f results :
  py_sum (map (fun r => Qabs (f r)) results) == sum_abs f results.
Proof.
  unfold py_sum. rewrite py_sum_fold, Qplus_0_l.
  induction results as [|r rs IH]; cbn [map fold_right sum_abs]; [reflexivity|].
  now rewrite IH.
Qed.

(** X12.  The summary that [run_example.py] computes by hand from the
    results is the one [generate_summary] returns: the same counters
    and the same totals. *)
Theorem run_example_summary_agrees results :
  total_items (run_example_summary results) = total_items (generate_summary results) /\
  matches (run_example_summary results) = matches (generate_summary results) /\
  quantity_mismatches (run_example_summary results)
    = quantity_mismatches (generate_summary results) /\
  price_mismatches (run_example_summary results)
    = price_mismatches (generate_summary results) /\
  missing_items (run_example_summary results)
    = missing_items (generate_summary results) /\
  extra_items (run_example_summary results) = extra_items (generate_summary results) /\
  total_quantity_difference (run_example_summary results)
    == total_quantity_difference (generate_summary results) /\
  total_price_difference (run_example_summary results)
    == total_price_difference (generate_summary results).
Proof.
  destruct (generate_summary_counters results) as (-> & -> & -> & -> & -> & ->).
  destruct (generate_summary_totals results) as (-> & ->).
  cbn [run_example_summary total_items matches quantity_mismatches price_mismatches
       missing_items extra_items total_quantity_difference total_price_difference].
  repeat split; try reflexivity; apply py_sum_abs.
Qed.

(** ** The notifier *)

Lemma count_status_pos s results :
  (0 <? count_status s results)%nat = has_status s results.
Proof.
  unfold has_status. induction results as [|r rs IH]; [reflexivity|].
  rewrite count_status_cons. cbn [existsb].
  destruct (String.eqb (status r) s); cbn [indicator orb]; [reflexivity | exact IH].
Qed.

Lemma count_status_all s results :
  (count_status s results =? List.length results)%nat = all_status s results.
Proof.
  unfold all_status, count_status.
  destruct (forallb _ results) eqn:Hall.
  - apply Nat.eqb_eq. now apply filter_length_all.
  - apply Nat.eqb_neq. intros H. apply filter_length_all in H. congruence.
Qed.

Lemma dec_ge_low total threshold :
  0 <= total -> threshold <= 0 -> dec_ge total threshold = true.
Proof.
  intros H0 Ht. unfold dec_ge. apply Qle_bool_iff.
  now apply Qle_trans with 0.
Qed.

(** X13.  With thresholds that are not positive, whether a notification
    is sent for the summary of a result list depends on the statuses
    alone: it is sent when a ['missing'] row exists and missing items
    are notified, or a ['quantity_mismatch'] row exists and quantity
    mismatches are notified, or a ['price_mismatch'] row exists and
    price discrepancies are notified, or every row is a ['match'] and
    successful comparisons are notified. *)
Theorem should_send_notification_low_thresholds config results :
  (quantity_threshold config <= 0)%Z ->
  price_threshold config <= 0 ->
  _should_send_notification config (generate_summary results)
  = (notify_missing_items config && has_status "missing" results)
    || (notify_quantity_mismatches config && has_status "quantity_mismatch" results)
    || (notify_price_discrepancies config && has_status "price_mismatch" results)
    || (notify_successful_comparisons config && all_status "match" results).
Proof.
  intros Hq Hp. unfold _should_send_notification.
  destruct (generate_summary_counters results) as (-> & -> & -> & -> & -> & _).
  assert (Hq0 : 0 <= total_quantity_difference (generate_summary results))
    by (rewrite (proj1 (generate_summary_totals results)); apply sum_abs_nonneg).
  assert (Hp0 : 0 <= total_price_difference (generate_summary results))
    by (rewrite (proj2 (generate_summary_totals results)); apply sum_abs_nonneg).
  rewrite (dec_ge_low _ _ Hq0), (dec_ge_low _ _ Hp0 Hp).
  - rewrite !count_status_pos, count_status_all, !andb_true_r.
    destruct (notify_missing_items config && has_status "missing" results);
      [reflexivity|].
    destruct (notify_quantity_mismatches config
              && has_status "quantity_mismatch" results); [reflexivity|].
    destruct (notify_price_discrepancies config
              && has_status "price_mismatch" results); [reflexivity|].
    now destruct (notify_successful_comparisons config && all_status "match" results).
  - change (0 : Q) with (inject_Z 0). rewrite <- Zle_Qle. exact Hq.
Qed.

Lemma should_send_notification_low_thresholds_witness :
  _should_send_notification run_example_config
    (generate_summary
       [mkComparisonResult "D" "Dowel" 0 9 0 1 (- (9)) (- (1)) "extra_item"])
  = false.
Proof.
  rewrite (should_send_notification_low_thresholds run_example_config).
  - reflexivity.
  - discriminate.
  - discriminate.
Defined.

Lemma has_status_false s results :
  has_status s results = false -> count_status s results = 0%nat.
Proof.
  intros H. rewrite <- count_status_pos in H.
  apply Nat.ltb_ge in H. lia.
Qed.

(** X14.  Whatever the configuration, a result list made of ['match']
    and ['extra_item'] rows with at least one ['extra_item'] row sends
    no notification: invoiced items that were never offered do not
    alert by themselves. *)
Theorem extra_items_alone_send_nothing config results :
  forallb (fun r => String.eqb (status r) "match"
                    || String.eqb (status r) "extra_item") results = true ->
  has_status "extra_item" results = true ->
  _should_send_notification config (generate_summary results) = false.
Proof.
  intros Hall Hextra. unfold _should_send_notification.
  destruct (generate_summary_counters results) as (-> & -> & -> & -> & -> & _).
  assert (Hnone : forall s, s <> "match" -> s <> "extra_item" ->
            has_status s results = false).
  { intros s Hm He. unfold has_status.
    destruct (existsb _ results) eqn:Hex; [|reflexivity].
    apply existsb_exists in Hex. destruct Hex as (r & Hin & Hr).
    apply String.eqb_eq in Hr.
    rewrite forallb_forall in Hall. specialize (Hall r Hin).
    rewrite Hr in Hall. apply orb_true_iff in Hall.
    destruct Hall as [H|H]; apply String.eqb_eq in H; congruence. }
  rewrite (has_status_false "missing"), (has_status_false "quantity_mismatch"),
    (has_status_false "price_mismatch")
    by (apply Hnone; discriminate).
  cbn [Nat.ltb Nat.leb andb]. rewrite !andb_false_r. cbn [andb].
  rewrite count_status_all.
  assert (Hnot : all_status "match" results = false).
  { unfold all_status.
    destruct (forallb (fun r => String.eqb (status r) "match") results) eqn:Hf;
      [|reflexivity].
    unfold has_status in Hextra. apply existsb_exists in Hextra.
    destruct Hextra as (r & Hin & Hr). apply String.eqb_eq in Hr.
    rewrite forallb_forall in Hf. specialize (Hf r Hin).
    rewrite Hr in Hf. discriminate. }
  rewrite Hnot. now rewrite andb_false_r.
Qed.

Lemma extra_items_alone_send_nothing_witness :
  _should_send_notification run_example_config
    (generate_summary
       [mkComparisonResult "A" "Anchor" 1 1 10 10 0 0 "match";
        mkComparisonResult "D" "Dowel" 0 9 0 1 (- (9)) (- (1)) "extra_item"])
  = false.
Proof.
  apply extra_items_alone_send_nothing; reflexivity.
Defined.

Lemma split_slash_not_nil path : split_slash path <> [].
Proof.
  destruct path as [|c path]; cbn [split_slash]; [discriminate|].
  destruct (Ascii.eqb c "/"); [discriminate|].
  destruct (split_slash path); discriminate.
Qed.

Lemma format_path_invariant path :
  exists dir,
    path = dir ++ _format_path path /\
    string_mem "/" (_format_path path) = false /\
    match split_slash path with
    | [_] => dir = ""
    | _ => exists d, dir = d ++ "/"
    end.
Proof.
  unfold _format_path.
  induction path as [|c path IH]; cbn [split_slash].
  - exists "". repeat split.
  - destruct IH as (dir & Hpath & Hmem & Hshape).
    destruct (Ascii.eqb_spec c "/") as [->|Hc].
    + pose proof (split_slash_not_nil path) as Hne.
      destruct (split_slash path) as [|part parts] eqn:Hsplit; [contradiction|].
      exists (String "/" dir). change (last ("" :: part :: parts) "") with (last (part :: parts) "").
      repeat split.
      * cbn [append]. now f_equal.
      * exact Hmem.
      * destruct parts as [|p2 parts].
        -- subst dir. now exists "".
        -- destruct Hshape as [d ->]. now exists (String "/" d).
    + pose proof (split_slash_not_nil path) as Hne.
      destruct (split_slash path) as [|part parts] eqn:Hsplit; [contradiction|].
      destruct parts as [|p2 parts].
      * subst dir. cbn [last append] in *. exists "". repeat split.
        -- cbn [append]. now f_equal.
        -- cbn [string_mem]. rewrite Hmem.
           destruct (Ascii.eqb_spec c "/"); [contradiction | reflexivity].
      * change (last (String c part :: p2 :: parts) "") with (last (part :: p2 :: parts) "").
        destruct Hshape as [d ->]. exists (String c (d ++ "/")). repeat split.
        -- cbn [append]. now f_equal.
        -- exact Hmem.
        -- now exists (String c d).
Qed.

Lemma split_slash_plain path :
  string_mem "/" path = false -> split_slash path = [path].
Proof.
  induction path as [|c path IH]; cbn [string_mem split_slash]; [reflexivity|].
  destruct (Ascii.eqb c "/"); [discriminate|].
  cbn [orb]. intros H. now rewrite (IH H).
Qed.

Lemma split_slash_two path :
  string_mem "/" path = true -> exists a b rest, split_slash path = a :: b :: rest.
Proof.
  induction path as [|c path IH]; cbn [string_mem split_slash]; [discriminate|].
  pose proof (split_slash_not_nil path) as Hne.
  destruct (Ascii.eqb c "/"); cbn [orb].
  - intros _. destruct (split_slash path) as [|p ps]; [contradiction|]. eauto.
  - intros H. destruct (IH H) as (a & b & rest & ->). eauto.
Qed.

Lemma format_path_cons c path :
  string_mem "/" path = true ->
  _format_path (String c path) = _format_path path.
Proof.
  intros H. unfold _format_path. cbn [split_slash].
  destruct (split_slash_two path H) as (a & b & rest & ->).
  now destruct (Ascii.eqb c "/").
Qed.

Lemma string_mem_app_slash path : string_mem "/" (path ++ "/") = true.
Proof.
  induction path as [|c path IH]; cbn [append string_mem]; [reflexivity|].
  rewrite IH. apply orb_true_r.
Qed.

(** X15.  [_format_path] returns what follows the last ['/'] of the
    path: the path is a directory part followed by the result, the
    result holds no ['/'], and the directory part is empty or ends with
    ['/']; a path that ends with ['/'] gives the empty string, a path
    without ['/'] is returned whole. *)
Theorem format_path_is_last_component path :
  (exists dir,
     path = dir ++ _format_path path /\
     string_mem "/" (_format_path path) = false /\
     (dir = "" \/ exists d, dir = d ++ "/")) /\
  _format_path (path ++ "/") = "" /\
  (string_mem "/" path = false -> _format_path path = path).
Proof.
  split; [|split].
  - destruct (format_path_invariant path) as (dir & H1 & H2 & H3).
    exists dir. repeat split; auto.
    destruct (split_slash path) as [|p [|p2 ps]]; auto.
  - induction path as [|c path IH]; [reflexivity|].
    cbn [append]. rewrite format_path_cons; [exact IH|].
    apply string_mem_app_slash.
  - intros H. unfold _format_path. now rewrite (split_slash_plain path H).
Qed.

(** * Further properties of the numeric normaliser *)

Lemma string_filter_idem p s : string_filter p (string_filter p s) = string_filter p s.
Proof.
  induction s as [|c s IH]; cbn [string_filter]; [reflexivity|].
  destruct (p c) eqn:Hp; [|exact IH]. cbn [string_filter]. now rewrite Hp, IH.
Qed.

Lemma string_filter_truthy p s :
  str_truthy (string_filter p s) = true -> str_truthy s = true.
Proof. destruct s; [discriminate | reflexivity]. Qed.

Lemma parse_decimal_clean value :
  _parse_decimal value = normalize_clean (string_filter is_numeric_char value).
Proof.
  unfold _parse_decimal. destruct value as [|c value]; reflexivity.
Qed.



Lemma string_mem_filter c p s :
  p c = true -> string_mem c (string_filter p s) = string_mem c s.
Proof.
  intros Hp. induction s as [|a s IH]; cbn [string_filter string_mem]; [reflexivity|].
  destruct (p a) eqn:Ha; cbn [string_mem].
  - now rewrite IH.
  - rewrite IH. destruct (Ascii.eqb_spec a c) as [->|]; [congruence | reflexivity].
Qed.

Lemma string_mem_filter_out c p s :
  p c = false -> string_mem c (string_filter p s) = false.
Proof.
  intros Hp. induction s as [|a s IH]; cbn [string_filter string_mem]; [reflexivity|].
  destruct (p a) eqn:Ha; [|exact IH]. cbn [string_mem]. rewrite IH.
  destruct (Ascii.eqb_spec a c) as [->|]; [congruence | reflexivity].
Qed.

Lemma string_filter_comm p q s :
  string_filter p (string_filter q s) = string_filter q (string_filter p s).
Proof.
  induction s as [|a s IH]; cbn [string_filter]; [reflexivity|].
  destruct (q a) eqn:Hq, (p a) eqn:Hp; cbn [string_filter];
    rewrite ?Hq, ?Hp, IH; reflexivity.
Qed.

Lemma string_filter_none p s :
  (forall c, string_mem c s = true -> p c = true) -> string_filter p s = s.
Proof.
  induction s as [|a s IH]; intros H; cbn [string_filter]; [reflexivity|].
  rewrite (H a) by (cbn [string_mem]; now rewrite Ascii.eqb_refl).
  rewrite IH; [reflexivity|]. intros c Hc. apply H. cbn [string_mem].
  rewrite Hc. apply orb_true_r.
Qed.

Lemma filter_not_comma_id s :
  string_mem "," s = false -> string_filter not_comma s = s.
Proof.
  intros H. apply string_filter_none. intros c Hc. unfold not_comma.
  destruct (Ascii.eqb_spec c ",") as [->|]; [congruence | reflexivity].
Qed.

(** X17.  In a string with a ['.'], commas are thousands separators:
    they are dropped, so the string normalises to the same value as the
    string without its commas. *)
Theorem parse_decimal_thousands_commas s :
  string_mem "." s = true ->
  _parse_decimal s = _parse_decimal (string_filter not_comma s).
Proof.
  intros Hdot. rewrite !parse_decimal_clean.
  rewrite (string_filter_comm is_numeric_char not_comma s).
  set (c := string_filter is_numeric_char s).
  assert (Hc : string_mem "." c = true).
  { unfold c. now rewrite string_mem_filter. }
  assert (Hc' : string_mem "." (string_filter not_comma c) = true).
  { now rewrite string_mem_filter. }
  assert (Hno : string_mem "," (string_filter not_comma c) = false).
  { now apply string_mem_filter_out. }
  unfold normalize_clean. rewrite Hc, Hno. cbn [andb].
  destruct (string_mem "," c) eqn:Hcomma; cbn [andb].
  - reflexivity.
  - now rewrite (filter_not_comma_id c Hcomma).
Qed.

Lemma parse_decimal_thousands_commas_witness :
  _parse_decimal "12,345,678.90" = _parse_decimal "12345678.90".
Proof. apply (parse_decimal_thousands_commas "12,345,678.90"). reflexivity. Defined.

Lemma is_numeric_comma_to_dot a :
  is_numeric_char (comma_to_dot a) = is_numeric_char a.
Proof.
  unfold comma_to_dot. destruct (Ascii.eqb_spec a ",") as [->|]; reflexivity.
Qed.

Lemma string_map_filter_numeric s :
  string_filter is_numeric_char (string_map comma_to_dot s)
  = string_map comma_to_dot (string_filter is_numeric_char s).
Proof.
  induction s as [|a s IH]; cbn [string_map string_filter]; [reflexivity|].
  rewrite is_numeric_comma_to_dot.
  destruct (is_numeric_char a); cbn [string_map]; now rewrite IH.
Qed.

Lemma string_mem_map_comma s : string_mem "," (string_map comma_to_dot s) = false.
Proof.
  induction s as [|a s IH]; cbn [string_map string_mem]; [reflexivity|].
  rewrite IH. unfold comma_to_dot.
  destruct (Ascii.eqb_spec a ",") as [->|Hne]; [reflexivity|].
  destruct (Ascii.eqb_spec a ","); [contradiction | reflexivity].
Qed.

Lemma string_map_comma_id s :
  string_mem "," s = false -> string_map comma_to_dot s = s.
Proof.
  induction s as [|a s IH]; cbn [string_map string_mem]; [reflexivity|].
  destruct (Ascii.eqb_spec a ",") as [->|Hne]; cbn [orb]; [discriminate|].
  intros H. rewrite (IH H). unfold comma_to_dot.
  destruct (Ascii.eqb_spec a ","); [contradiction | reflexivity].
Qed.

(** X18.  In a string without ['.'], a comma is the decimal separator:
    the string normalises to the same value as the string with every
    comma replaced by ['.']. *)
Theorem parse_decimal_decimal_comma s :
  string_mem "." s = false ->
  _parse_decimal s = _parse_decimal (string_map comma_to_dot s).
Proof.
  intros Hdot. rewrite !parse_decimal_clean, string_map_filter_numeric.
  set (c := string_filter is_numeric_char s).
  assert (Hc : string_mem "." c = false).
  { unfold c. now rewrite string_mem_filter. }
  unfold normalize_clean. rewrite Hc, string_mem_map_comma, andb_false_r.
  cbn [andb]. destruct (string_mem "," c) eqn:Hcomma.
  - reflexivity.
  - now rewrite (string_map_comma_id c Hcomma).
Qed.

Lemma parse_decimal_decimal_comma_witness :
  _parse_decimal "1234,56 EUR" = _parse_decimal "1234.56 EUR".
Proof. apply (parse_decimal_decimal_comma "1234,56 EUR"). reflexivity. Defined.

Lemma digits_value_nonneg s : forall acc, (0 <= acc)%Z -> (0 <= digits_value acc s)%Z.
Proof.
  induction s as [|c s IH]; intros acc Hacc; cbn [digits_value]; [exact Hacc|].
  apply IH. unfold digit_value. lia.
Qed.

Lemma decimal_unsigned_nonneg s q : decimal_unsigned s = Some q -> 0 <= q.
Proof.
  unfold decimal_unsigned. destruct (split_dot s) as [ip fp].
  destruct (_ && _); [|discriminate]. intros [= <-].
  unfold Qle. cbn [Qnum Qden]. rewrite Z.mul_0_l, Z.mul_1_r.
  apply digits_value_nonneg. lia.
Qed.

(** X19.  Without a ['-'] in the string, [_parse_decimal] never returns
    a negative value. *)
Theorem parse_decimal_nonneg s :
  string_mem "-" s = false -> 0 <= _parse_decimal s.
Proof.
  intros Hminus. rewrite parse_decimal_clean.
  set (c := string_filter is_numeric_char s).
  assert (Hc : string_mem "-" c = false).
  { unfold c. now rewrite string_mem_filter. }
  unfold normalize_clean.
  set (c' := if string_mem "," c && string_mem "." c then _
             else if string_mem "," c then _ else c).
  assert (Hc' : string_mem "-" c' = false).
  { unfold c'. destruct (string_mem "," c && string_mem "." c).
    - now rewrite string_mem_filter.
    - destruct (string_mem "," c); [|exact Hc].
      clear c'. induction c as [|a c IH]; [reflexivity|].
      cbn [string_map string_mem] in *.
      apply orb_false_iff in Hc. destruct Hc as [Ha Hc].
      rewrite (IH Hc), orb_false_r. unfold comma_to_dot.
      destruct (Ascii.eqb a ","); [reflexivity | exact Ha]. }
  assert (Hdec : Decimal c' = decimal_unsigned c').
  { destruct c' as [|a c'']; [reflexivity|].
    cbn [string_mem] in Hc'. apply orb_false_iff in Hc'. destruct Hc' as [Ha _].
    unfold Decimal.
    destruct a as [b0 b1 b2 b3 b4 b5 b6 b7].
    destruct b0, b1, b2, b3, b4, b5, b6, b7; try reflexivity. discriminate. }
  rewrite Hdec. destruct (decimal_unsigned c') as [q|] eqn:Hq.
  - exact (decimal_unsigned_nonneg _ _ Hq).
  - apply Qle_refl.
Qed.

Lemma parse_decimal_nonneg_witness : 0 <= _parse_decimal "€1.234,56".
Proof. apply parse_decimal_nonneg. reflexivity. Defined.

(** * Further properties of the table strategy *)

Lemma dict_set_keys_NoDup {V} (d : dict V) k v :
  NoDup (dict_keys d) -> NoDup (dict_keys (dict_set d k v)).
Proof.
  intros Hnd. destruct (dict_get d k) as [v0|] eqn:Hget.
  - assert (Hkeys : dict_keys (dict_set d k v) = dict_keys d).
    { clear Hnd. revert Hget. induction d as [|[k0 v1] d IH]; cbn [dict_get dict_set];
        [discriminate|].
      destruct (String.eqb_spec k0 k) as [->|Hne]; [reflexivity|].
      intros H. cbn [dict_keys map fst]. f_equal. now apply IH. }
    now rewrite Hkeys.
  - rewrite (dict_set_fresh _ _ _ Hget). unfold dict_keys. rewrite map_app.
    apply NoDup_app; auto.
    + repeat constructor. intros [].
    + intros x Hx [<- | []]. now apply dict_get_none in Hget.
Qed.

Lemma identify_fold_NoDup ihs : forall columns,
  NoDup (dict_keys columns) ->
  NoDup (dict_keys (fold_left identify_step ihs columns)).
Proof.
  induction ihs as [|[i header] ihs IH]; intros columns Hnd; cbn [fold_left];
    [exact Hnd|].
  apply IH. rewrite identify_step_role.
  destruct (header_role header); [now apply dict_set_keys_NoDup | exact Hnd].
Qed.

Lemma header_role_name header role :
  header_role header = Some role -> In role role_names.
Proof.
  unfold header_role. destruct (find _ role_vocabulary) as [[r ks]|] eqn:Hfind;
    [|discriminate].
  intros [= <-]. apply find_some in Hfind. destruct Hfind as [Hin _].
  unfold role_names. change r with (fst (r, ks)). now apply in_map.
Qed.

(** X20.  The dictionary [_identify_columns] returns has each role at
    most once, only the five role names as keys, and only positions of
    the header row as values. *)
Theorem identify_columns_well_formed (header_row : list string) :
  NoDup (dict_keys (_identify_columns header_row)) /\
  (forall role i,
     dict_get (_identify_columns header_row) role = Some i ->
     In role role_names /\ (i < List.length header_row)%nat).
Proof.
  split.
  - unfold _identify_columns. apply identify_fold_NoDup. constructor.
  - intros role i. unfold _identify_columns, enumerate.
    rewrite identify_fold_get.
    destruct (last_index role header_row 0) as [k|] eqn:Hlast; [|discriminate].
    intros [= <-]. apply last_index_spec in Hlast.
    destruct Hlast as (_ & (header & Hnth & Hrole) & _).
    rewrite Nat.sub_0_r in Hnth. split.
    + exact (header_role_name _ _ Hrole).
    + apply nth_error_Some. congruence.
Qed.






(** An Item of a table is built from five cells of one row. *)
Lemma table_item_inv table item :
  In item (_process_table table) ->
  exists c_code c_desc c_qty c_unit c_total,
    item = mkItem (strip c_code) (strip c_desc)
             (_parse_decimal c_qty) (_parse_decimal c_unit)
             (if dec_truthy (_parse_decimal c_total) then _parse_decimal c_total
              else _parse_decimal c_qty * _parse_decimal c_unit) /\
    strip c_code <> "" /\
    ~ _parse_decimal c_qty == 0 /\
    ~ _parse_decimal c_unit == 0.
Proof.
  intros Hin. apply process_table_In in Hin.
  destruct Hin as (header_row & rows & row & _ & _ & _ & Hp).
  pose proof (parse_row_cases row (_identify_columns header_row)) as Hc.
  destruct (cell row _ "item_code" 0%nat) as [c_code|]; [|congruence].
  destruct (cell row _ "description" 1%nat) as [c_desc|]; [|congruence].
  destruct (cell row _ "quantity" 2%nat) as [c_qty|]; [|congruence].
  destruct (cell row _ "unit_price" 3%nat) as [c_unit|]; [|congruence].
  destruct (cell row _ "total_price" 4%nat) as [c_total|]; [|congruence].
  rewrite Hp in Hc.
  destruct (str_truthy (strip c_code)) eqn:Hs; [|discriminate].
  cbn [andb] in Hc.
  destruct (dec_truthy (_parse_decimal c_qty)) eqn:Hq; [|discriminate].
  destruct (dec_truthy (_parse_decimal c_unit)) eqn:Hu; [|discriminate].
  cbn [andb] in Hc. injection Hc as ->.
  apply dec_truthy_true in Hq, Hu.
  exists c_code, c_desc, c_qty, c_unit, c_total.
  split; [reflexivity|]. split; [|split; assumption].
  intros H. rewrite H in Hs. discriminate.
Qed.



Lemma parsed_rows_app cols rows1 rows2 :
  parsed_rows cols (rows1 ++ rows2) = (parsed_rows cols rows1 ++ parsed_rows cols rows2)%list.
Proof.
  induction rows1 as [|row rows1 IH]; cbn [app parsed_rows]; [reflexivity|].
  destruct (_parse_row row cols); rewrite IH; reflexivity.
Qed.

Lemma parsed_rows_length cols rows :
  (List.length (parsed_rows cols rows) <= List.length rows)%nat.
Proof.
  induction rows as [|row rows IH]; cbn [parsed_rows List.length]; [lia|].
  destruct (_parse_row row cols); cbn [List.length]; lia.
Qed.

(** X22.  [_process_table] gives at most one Item per data row and none
    for the header row, and treats the data rows one by one: the Items
    of a table are the Items of its first rows followed by the Items of
    its remaining rows, under the same header. *)
Theorem process_table_rows header_row rows1 rows2 :
  _process_table [header_row] = [] /\
  (List.length (_process_table (header_row :: rows1)) <= List.length rows1)%nat /\
  _process_table (header_row :: rows1 ++ rows2)
  = (_process_table (header_row :: rows1) ++ _process_table (header_row :: rows2))%list.
Proof.
  rewrite !process_table_cons.
  destruct (dict_is_empty (_identify_columns header_row)).
  - repeat split. cbn [List.length]. lia.
  - repeat split.
    + apply parsed_rows_length.
    + apply parsed_rows_app.
Qed.

Example process_text_line :
  _process_text "A123 Test Item 10 15.50"
  = [mkItem "A123" "Test Item" (10 # 1) (1550 # 100) ((10 # 1) * (1550 # 100))].
Proof. reflexivity. Qed.

Example finditer_backtracking :
  finditer "A   1 2" = [mkTextMatch "A" " " "1" "2"] /\
  finditer "X-1 foo 1.5 2." = [mkTextMatch "X-1" "foo" "1.5" "2"] /\
  finditer "abc A1 b 3 4.5.6 Z9 q 1 2"
    = [mkTextMatch "A1" "b" "3" "4.5"; mkTextMatch "Z9" "q" "1" "2"] /\
  finditer "A1 b 12 34 56 c 7 8"
    = [mkTextMatch "A1" "b" "12" "34"; mkTextMatch "56" "c" "7" "8"] /\
  finditer "A b 1 2A b 1 2" = [mkTextMatch "A" "b" "1" "2"; mkTextMatch "A" "b" "1" "2"] /\
  finditer "A123 Test Item 1 10 15.50 155.00" = [mkTextMatch "A123" "Test Item" "1" "10"].
Proof. repeat split. Qed.

Example finditer_lines :
  finditer "A123 Widget 10 15.50
B456 Gadget 5 25.00"
  = [mkTextMatch "A123" "Widget" "10" "15.50"; mkTextMatch "B456" "Gadget" "5" "25.00"] /\
  finditer "A b
c 1 2" = [].
Proof. split; reflexivity. Qed.

(** The text of [test_process_text]. *)
Example process_text_test :
  _process_text "
    Item: A123
    Description: Test Item 1
    Quantity: 10 Units
    Price: €15.50
    
    Item: B456
    Description: Test Item 2
    Quantity: 5 Units
    Price: €25.00
    " = [].
Proof. reflexivity. Qed.

(** * Properties of the text strategy *)























(** * Properties of [extract_items_from_pdf] *)

Lemma tables_loop tables : forall items,
  fold_left (fun items table => (items ++ _process_table table)%list) tables items
  = (items ++ flat_map _process_table tables)%list.
Proof.
  induction tables as [|table tables IH]; intros items; cbn [fold_left flat_map].
  - now rewrite app_nil_r.
  - rewrite IH. now rewrite <- app_assoc.
Qed.

Lemma extract_pages_spec pages : forall items,
  extract_pages pages items
  = if forallb (fun page => match page_items page with
                            | Some _ => true
                            | None => false
                            end) pages
    then Some (items ++ flat_map (fun page => items_or_nil (page_items page)) pages)%list
    else None.
Proof.
  induction pages as [|page pages IH]; intros items;
    cbn [extract_pages forallb flat_map].
  - now rewrite app_nil_r.
  - unfold page_items at 1 3.
    destruct (extract_tables page) as [tables|]; [|reflexivity].
    destruct (extract_text page) as [text|]; [|reflexivity].
    rewrite IH, tables_loop. cbn [andb items_or_nil].
    destruct (forallb _ pages); [|reflexivity].
    now rewrite !app_assoc.
Qed.

(** X26.  [extract_items_from_pdf] is all or nothing: when every page
    can be read, it returns the Items of the pages in page order, for
    each page the Items of its tables followed by those of its text;
    when one page, or the document itself, cannot be read, it returns
    no Item at all, whatever the other pages hold. *)
Theorem extract_items_all_or_nothing pages :
  ((forall page, In page pages -> page_items page <> None) ->
   extract_items_from_pdf (Ok pages)
   = flat_map (fun page => items_or_nil (page_items page)) pages) /\
  ((exists page, In page pages /\ page_items page = None) ->
   extract_items_from_pdf (Ok pages) = []) /\
  (forall e, extract_items_from_pdf (Raise e) = []).
Proof.
  unfold extract_items_from_pdf. rewrite extract_pages_spec. cbn [app].
  split; [|split; [|reflexivity]].
  - intros Hall.
    assert (Hf : forallb (fun page => match page_items page with
                                      | Some _ => true
                                      | None => false
                                      end) pages = true).
    { apply forallb_forall. intros page Hin. specialize (Hall page Hin).
      destruct (page_items page); [reflexivity | congruence]. }
    now rewrite Hf.
  - intros (page & Hin & Hnone).
    destruct (forallb _ pages) eqn:Hf; [|reflexivity].
    rewrite forallb_forall in Hf. specialize (Hf page Hin).
    rewrite Hnone in Hf. discriminate.
Qed.




(** X28.  An offer whose Items all come from tables cannot make
    [compare_documents] raise: the table strategy keeps no Item with a
    unit price of 0, so the tolerance test never divides by zero. *)
Theorem table_offer_never_raises self (h : heap) offer inv :
  Forall (fun o => exists table, In (h o) (_process_table table)) offer ->
  exists rs, snd (compare_documents self h offer inv) = Ok rs.
Proof.
  intros Hall. apply compare_documents_returns.
  revert Hall. apply Forall_impl. intros o [table Hin].
  destruct (table_item_inv table (h o) Hin)
    as (c_code & c_desc & c_qty & c_unit & c_total & -> & _ & _ & Hu).
  exact Hu.
Qed.

Lemma table_offer_never_raises_witness :
  exists rs,
    snd (compare_documents PDFProcessor_init DocumentRuns.offer_heap [0%nat] [1%nat])
    = Ok rs.
Proof.
  apply table_offer_never_raises.
  constructor; [|constructor].
  exists [TableRuns.header; ["A123"; "Test Item 1"; "10"; "15.50"; "155.00"]].
  left. reflexivity.
Defined.

Example broken_page_loses_everything :
  extract_items_from_pdf DocumentRuns.broken_pdf = [].
Proof. reflexivity. Qed.

(** An offer line with a price of 0 read by the text strategy, against
    an invoice line with the same quantity. *)
Example text_offer_can_raise :
  map unit_price (_process_text "A123 Sample 5 0") = [0 # 1] /\
  snd (compare_documents PDFProcessor_init Runs.zero_price_heap [0%nat] [1%nat])
    = Raise DivisionByZero.
Proof. split; reflexivity. Qed.
